(** * edge_detect.py: the PGM loader and writer and the four pixel stages

    A shallow embedding of [EdgeDetectLib] (src/img_edge_detector/edge_detect.py).

    - A NumPy array of rank 2 is a list of rows; the arrays the program
      builds have [dtype=int], that is 64-bit signed samples, so products and
      sums wrap ([wrap64]).
    - The stages allocate an output array with [np.zeros] and assign cells of
      it inside two nested [for] loops: [for_each2] threads the array through
      the loop body, [set2] is the assignment [a[y][x] = v].
    - A raised exception is a value of [exn]; a function that can raise
      returns a [result].
    - A file is its content, a list of bytes.
    - The log calls of the stages and of the writer have no influence on what
      these return and are left out.  The log of the loader is modelled: its
      warnings are part of what the loader promises. *)

From Stdlib Require Import ZArith Lia Bool DecimalNat.
From Stdlib.Strings Require Import Byte.
From stdpp Require Import base tactics option numbers list.

Local Open Scope Z_scope.

(** ** Outcomes *)

(** What the header check of the loader reports in its [Exception]. *)
Inductive header_fault :=
| NoHeader            (* not exactly 4 header strings *)
| BadMagic            (* string 0 is not P5 *)
| BadDimensions       (* width or height fails isdigit() *)
| BadMaxVal.          (* maximum grey value fails isdigit() *)

Inductive exn :=
| ValueError
| TypeError
| NotImplementedError
| OverflowError
| UnicodeEncodeError
| PlainException (f : header_fault).

(** What a call gives: a value, an exception, or [Unmodelled] for an input
    that this development does not follow (a header line of the input file
    with a byte above 0x7f, see [decode]). *)
Inductive result (A : Type) :=
| Ok (a : A)
| Raise (e : exn)
| Unmodelled.
Arguments Ok {A} a.
Arguments Raise {A} e.
Arguments Unmodelled {A}.

(** ** 64-bit samples *)

Definition wrap64 (z : Z) : Z := (z + 2 ^ 63) mod 2 ^ 64 - 2 ^ 63.

Definition int64 (z : Z) : Prop := - 2 ^ 63 <= z < 2 ^ 63.

(** ** Arrays of rank 2 *)

Abbreviation raster := (list (list Z)).

(** [a.shape[0]] and [a.shape[1]]; an array without rows is taken to have no
    columns. *)
Definition nrows (a : raster) : nat := length a.
Definition ncols (a : raster) : nat := length (hd [] a).

(** [a[y][x]] *)
Definition get (a : raster) (y x : nat) : Z := nth x (nth y a []) 0.

(** [a[y][x] = v].  Python raises IndexError outside the array; the loops
    below only assign inside it. *)
Definition set2 (a : raster) (y x : nat) (v : Z) : raster :=
  alter (fun row => <[x := v]> row) y a.

(** A list of rows is an [h] by [w] array when it has [h] rows of [w] samples. *)
Definition rect (h w : nat) (a : raster) : Prop :=
  length a = h /\ Forall (fun row => length row = w) a.

Definition all_samples (P : Z -> Prop) (a : raster) : Prop :=
  Forall (Forall P) a.

(** [np.zeros((h, w), dtype=int)] *)
Definition np_zeros (h w : nat) : raster := replicate h (replicate w 0).

(** One axis of [np.pad(a, (1, 1), "edge")]: the first and the last element
    are repeated once. *)
Definition pad1 {A} (d : A) (l : list A) : list A := hd d l :: l ++ [List.last l d].

(** [np.pad(a, (1, 1), "edge")] on an array without an empty axis. *)
Definition np_pad_edge (a : raster) : raster := pad1 [] (map (pad1 0) a).

(** [l[lo:hi]] for [0 <= lo], [0 <= hi] *)
Definition slice {A} (lo hi : nat) (l : list A) : list A :=
  take (hi - lo) (drop lo l).

(** [a[y0:y1, x0:x1]] *)
Definition slice2 (y0 y1 x0 x1 : nat) (a : raster) : raster :=
  map (slice x0 x1) (slice y0 y1 a).

(** [a[y0:y1, x]] *)
Definition column (y0 y1 x : nat) (a : raster) : list Z :=
  map (fun row => nth x row 0) (slice y0 y1 a).

(** [a * b] for two arrays of one shape *)
Definition np_mul (a b : raster) : raster :=
  zip_with (zip_with (fun p q => wrap64 (p * q))) a b.

(** [a + b] for two arrays of one shape *)
Definition np_add (a b : raster) : raster :=
  zip_with (zip_with (fun p q => wrap64 (p + q))) a b.

(** [np.sum(a)] *)
Definition np_sum (a : raster) : Z :=
  fold_left (fun s v => wrap64 (s + v)) (concat a) 0.

(** [np.any(a)] *)
Definition np_any (a : raster) : bool :=
  existsb (fun v => negb (v =? 0)) (concat a).

(** [max(l)] and [min(l)] of a list that is not empty (Python raises
    ValueError on an empty one; the slices below have three elements). *)
Definition py_max (l : list Z) : Z := fold_right Z.max (hd 0 l) l.
Definition py_min (l : list Z) : Z := fold_right Z.min (hd 0 l) l.

(** [for y in ys: for x in xs: a = body y x a] *)
Definition for_each2 (ys xs : list nat) (body : nat -> nat -> raster -> raster)
    (a : raster) : raster :=
  fold_left (fun a y => fold_left (fun a x => body y x a) xs a) ys a.

(** [range(lo, hi)] *)
Definition range (lo hi : nat) : list nat := seq lo (hi - lo).

(** ** Constants *)

Definition LAPLACIAN : raster :=
  [[-1; -1; -1];
   [-1;  8; -1];
   [-1; -1; -1]].
Definition THRESH_HI : Z := 80.
Definition THRESH_LO : Z := 40.
Definition MAX_VAL : Z := 255.

(** ** The stages *)

(** [np.pad] in mode "edge" raises ValueError on an array with an empty axis. *)
Definition has_empty_axis (a : raster) : bool :=
  (nrows a =? 0)%nat || (ncols a =? 0)%nat.

(** [apply_conv_kernel].  The padded copy is built before the kernel is
    looked at.  For a kernel that is not 3 by 3 the message of the
    NotImplementedError is built first, and its f-string calls
    [conv_kernel_np.shape()], a tuple: that is a TypeError, raised before
    the [raise] statement is reached. *)
Definition apply_conv_kernel (in_np_arr conv_kernel_np : raster) : result raster :=
  if has_empty_axis in_np_arr then Raise ValueError else
  let arr_padded := np_pad_edge in_np_arr in
  if negb ((nrows conv_kernel_np =? 3)%nat && (ncols conv_kernel_np =? 3)%nat)
  then Raise TypeError
  else
    Ok (for_each2 (range 0 (nrows in_np_arr - 2)) (range 0 (ncols in_np_arr - 2))
          (fun y x arr_conv =>
             set2 arr_conv y x
               (np_sum (np_mul (slice2 y (y + 3) x (x + 3) arr_padded) conv_kernel_np)))
          (np_zeros (nrows in_np_arr) (ncols in_np_arr))).

(** [apply_edge_thinning] *)
Definition apply_edge_thinning (in_np_arr : raster) : result raster :=
  if has_empty_axis in_np_arr then Raise ValueError else
  let arr_padded := np_pad_edge in_np_arr in
  Ok (for_each2 (range 1 (nrows in_np_arr - 1)) (range 1 (ncols in_np_arr - 1))
        (fun y x arr_thinned =>
           let center_pxl := get arr_padded y x in
           let strongest_x_pos :=
             center_pxl >=? py_max (slice (x - 1) (x + 2) (nth y arr_padded [])) in
           let strongest_x_neg :=
             center_pxl <=? py_min (slice (x - 1) (x + 2) (nth y arr_padded [])) in
           let strongest_y_pos :=
             center_pxl >=? py_max (column (y - 1) (y + 2) x arr_padded) in
           let strongest_y_neg :=
             center_pxl <=? py_min (column (y - 1) (y + 2) x arr_padded) in
           if strongest_x_pos || strongest_x_neg || strongest_y_pos || strongest_y_neg
           then set2 arr_thinned y x (get in_np_arr y x)
           else arr_thinned)
        (np_zeros (nrows in_np_arr) (ncols in_np_arr))).

(** The two passes of [apply_edge_tracking]. *)
Definition strong_pass (in_np_arr arr_padded : raster) : raster :=
  for_each2 (range 1 (nrows in_np_arr - 1)) (range 1 (ncols in_np_arr - 1))
    (fun y x strong_pxls =>
       let center_pxl := get arr_padded y x in
       if (center_pxl >? THRESH_HI) || (center_pxl <? - THRESH_HI)
       then set2 strong_pxls y x (get in_np_arr y x)
       else strong_pxls)
    (np_zeros (nrows in_np_arr) (ncols in_np_arr)).

Definition weak_pass (in_np_arr arr_padded strong_pxls : raster) : raster :=
  for_each2 (range 1 (nrows in_np_arr - 1)) (range 1 (ncols in_np_arr - 1))
    (fun y x weak_pxls =>
       let center_pxl := get arr_padded y x in
       if get strong_pxls y x >? 0 then weak_pxls
       else if (center_pxl >? THRESH_LO) || (center_pxl <? - THRESH_LO) then
         if np_any (slice2 (y - 1) (y + 2) (x - 1) (x + 2) strong_pxls)
         then set2 weak_pxls y x (get in_np_arr y x)
         else weak_pxls
       else weak_pxls)
    (np_zeros (nrows in_np_arr) (ncols in_np_arr)).

(** [apply_edge_tracking] *)
Definition apply_edge_tracking (in_np_arr : raster) : result raster :=
  if has_empty_axis in_np_arr then Raise ValueError else
  let arr_padded := np_pad_edge in_np_arr in
  let strong_pxls := strong_pass in_np_arr arr_padded in
  let weak_pxls := weak_pass in_np_arr arr_padded strong_pxls in
  Ok (np_add strong_pxls weak_pxls).

(** [np.abs] on 64-bit samples: the most negative sample is its own
    absolute value. *)
Definition np_abs (a : raster) : raster := map (map (fun v => wrap64 (Z.abs v))) a.

(** [rectify_and_clip] *)
Definition rectify_and_clip (np_arr : raster) : raster :=
  let np_arr := np_abs np_arr in
  for_each2 (range 0 (nrows np_arr)) (range 0 (ncols np_arr))
    (fun y x np_arr => set2 np_arr y x (Z.min (get np_arr y x) MAX_VAL))
    np_arr.


(** ** The log *)

Inductive level := DEBUG | INFO | WARNING.

Inductive message :=
| Opening
| IgnoringComment (line : list byte)
| HeaderStrings (strings : list (list byte))
| ParsedHeader (wd ht max_val : nat)
| RasterSizeExpected (wd ht : nat)
| RasterSizeMismatch (wd ht actual : nat)
| SubstitutingZero (y x : nat)
| RasterArray (np_arr : raster).

Definition log_record : Type := level * message.

(** ** The PGM loader *)

Definition newline : byte := x0a.

(** [for line in in_fh] on a binary file: the lines, each with its b"\n"
    (the last one may lack it). *)
Fixpoint lines (f : list byte) : list (list byte) :=
  match f with
  | [] => []
  | b :: f' =>
      if Byte.eqb b newline then [b] :: lines f'
      else match lines f' with
           | [] => [[b]]
           | l :: ls => (b :: l) :: ls
           end
  end.

(** [line.decode()] for a line of 7-bit bytes, where a character is its byte.
    A line with a byte above 0x7f is outside this model ([None]): whether it
    decodes, which of its characters are white space and which are digits is
    not modelled. *)
Definition decode (line : list byte) : option (list byte) :=
  if forallb (fun b => (Byte.to_N b <? 128)%N) line then Some line else None.

(** [\s] on a character below 0x80 (a str pattern: the Unicode white space,
    which below 0x80 is 0x09-0x0d, 0x1c-0x1f and 0x20). *)
Definition is_space (c : byte) : bool :=
  let n := Byte.to_N c in
  ((9 <=? n) && (n <=? 13) || (28 <=? n) && (n <=? 32))%N.

(** [re.search(r"^\s*#", s)] *)
Fixpoint is_comment (s : list byte) : bool :=
  match s with
  | [] => false
  | c :: s' => if is_space c then is_comment s' else Byte.eqb c "#"%byte
  end.

(** [re.findall(r"\S+", s)]; [cur] is the run being read, reversed. *)
Fixpoint findall_nonspace_from (cur : list byte) (s : list byte) : list (list byte) :=
  match s with
  | [] => match cur with [] => [] | _ => [rev cur] end
  | c :: s' =>
      if is_space c
      then match cur with
           | [] => findall_nonspace_from [] s'
           | _ => rev cur :: findall_nonspace_from [] s'
           end
      else findall_nonspace_from (c :: cur) s'
  end.
Definition findall_nonspace (s : list byte) : list (list byte) :=
  findall_nonspace_from [] s.

(** [s.isdigit()] on characters below 0x80 *)
Definition is_digit (c : byte) : bool :=
  let n := Byte.to_N c in ((48 <=? n) && (n <=? 57))%N.
Definition isdigit (s : list byte) : bool :=
  match s with [] => false | _ => forallb is_digit s end.

(** [int(s)] for a string that passed [isdigit] (the limit of Python 3.11 on
    the number of digits, 4300 by default, is not modelled). *)
Definition py_int (s : list byte) : nat :=
  fold_left (fun acc c => (10 * acc + (N.to_nat (Byte.to_N c) - 48))%nat) s 0%nat.

(** [s == t] on strings *)
Fixpoint str_eqb (s t : list byte) : bool :=
  match s, t with
  | [], [] => true
  | c :: s', d :: t' => Byte.eqb c d && str_eqb s' t'
  | _, _ => false
  end.

(** The loop that collects the header strings.  It returns them with the
    lines that were not read, and the log. *)
Fixpoint read_header (ls : list (list byte)) (pgm_hdr_strings : list (list byte))
    (log : list log_record)
  : option (list (list byte) * list (list byte) * list log_record) :=
  match ls with
  | [] => Some (pgm_hdr_strings, [], log)
  | line :: ls' =>
      match decode line with
      | None => None
      | Some s =>
          let '(strings, log) :=
            if is_comment s then (pgm_hdr_strings, log ++ [(DEBUG, IgnoringComment s)])
            else if (length pgm_hdr_strings <? 4)%nat
                 then (pgm_hdr_strings ++ findall_nonspace s, log)
                 else (pgm_hdr_strings, log) in
          if (4 <=? length strings)%nat then Some (strings, ls', log)
          else read_header ls' strings log
      end
  end.

(** The header of a file: width, height, maximum grey value and the bytes
    after the header, [in_fh.read()]. *)
Definition parse_header (f : list byte)
  : list log_record * result (nat * nat * nat * list byte) :=
  let log := [(INFO, Opening)] in
  match read_header (lines f) [] log with
  | None => (log, Unmodelled)
  | Some (pgm_hdr_strings, rest, log) =>
      let log := log ++ [(DEBUG, HeaderStrings pgm_hdr_strings)] in
      match pgm_hdr_strings with
      | [magic_num; wd; ht; max_val] =>
          if negb (str_eqb magic_num ["P"%byte; "5"%byte])
          then (log, Raise (PlainException BadMagic))
          else if negb (isdigit wd && isdigit ht)
          then (log, Raise (PlainException BadDimensions))
          else if negb (isdigit max_val)
          then (log, Raise (PlainException BadMaxVal))
          else
            let wd := py_int wd in
            let ht := py_int ht in
            let max_val := py_int max_val in
            (log ++ [(DEBUG, ParsedHeader wd ht max_val)],
             Ok (wd, ht, max_val, concat rest))
      | _ => (log, Raise (PlainException NoHeader))
      end
  end.

(** The inner loop over the columns of row [y]: the state is the row built
    so far, the position in the buffer and the log. *)
Definition read_row (buf : list byte) (wd y : nat) (pos : nat) (log : list log_record)
  : list Z * nat * list log_record :=
  fold_left
    (fun '(row, pos, log) x =>
       if (pos <? length buf)%nat
       then (row ++ [Z.of_N (Byte.to_N (nth pos buf x00))], S pos, log)
       else (row ++ [0], S pos, log ++ [(WARNING, SubstitutingZero y x)]))
    (range 0 wd) ([], pos, log).

(** The loop over the rows. *)
Definition read_raster (buf : list byte) (wd ht : nat) (log : list log_record)
  : raster * nat * list log_record :=
  fold_left
    (fun '(raster, pos, log) y =>
       let '(row, pos, log) := read_row buf wd y pos log in
       (raster ++ [row], pos, log))
    (range 0 ht) ([], 0%nat, log).

(** [convert_pgm_to_np_arr] on the content of the input file *)
Definition convert_pgm_to_np_arr (f : list byte) : list log_record * result raster :=
  match parse_header f with
  | (log, Ok (wd, ht, max_val, buf)) =>
      let log :=
        log ++ [if (length buf =? wd * ht)%nat
                then (INFO, RasterSizeExpected wd ht)
                else (WARNING, RasterSizeMismatch wd ht (length buf))] in
      let '(raster, _, log) := read_raster buf wd ht log in
      (log ++ [(DEBUG, RasterArray raster)], Ok raster)
  | (log, Raise e) => (log, Raise e)
  | (log, Unmodelled) => (log, Unmodelled)
  end.

(** ** The PGM writer *)

(** [str(n)] *)
Fixpoint uint_bytes (u : Decimal.uint) : list byte :=
  match u with
  | Decimal.Nil => []
  | Decimal.D0 u => "0"%byte :: uint_bytes u
  | Decimal.D1 u => "1"%byte :: uint_bytes u
  | Decimal.D2 u => "2"%byte :: uint_bytes u
  | Decimal.D3 u => "3"%byte :: uint_bytes u
  | Decimal.D4 u => "4"%byte :: uint_bytes u
  | Decimal.D5 u => "5"%byte :: uint_bytes u
  | Decimal.D6 u => "6"%byte :: uint_bytes u
  | Decimal.D7 u => "7"%byte :: uint_bytes u
  | Decimal.D8 u => "8"%byte :: uint_bytes u
  | Decimal.D9 u => "9"%byte :: uint_bytes u
  end.
Definition py_str (n : nat) : list byte := uint_bytes (Nat.to_uint n).

Definition byte_of_Z (z : Z) : byte :=
  match Byte.of_N (Z.to_N z) with Some b => b | None => x00 end.

(** The UTF-8 encoding of a code point. *)
Definition utf8 (c : Z) : list byte :=
  if c <? 128 then [byte_of_Z c]
  else if c <? 2048 then
    [byte_of_Z (Z.lor 192 (Z.shiftr c 6));
     byte_of_Z (Z.lor 128 (Z.land c 63))]
  else if c <? 65536 then
    [byte_of_Z (Z.lor 224 (Z.shiftr c 12));
     byte_of_Z (Z.lor 128 (Z.land (Z.shiftr c 6) 63));
     byte_of_Z (Z.lor 128 (Z.land c 63))]
  else
    [byte_of_Z (Z.lor 240 (Z.shiftr c 18));
     byte_of_Z (Z.lor 128 (Z.land (Z.shiftr c 12) 63));
     byte_of_Z (Z.lor 128 (Z.land (Z.shiftr c 6) 63));
     byte_of_Z (Z.lor 128 (Z.land c 63))].

(** [out_fh.write(chr(p))] on a file opened with [open(name, "w")]: a text
    file, whose encoding is UTF-8 and whose line ending is b"\n" (Python on
    a POSIX system).  [chr] raises OverflowError for an argument that does not
    fit a C int and ValueError for another one outside [range(0x110000)], and
    the encoder refuses a surrogate. *)
Definition write_chr (p : Z) : result (list byte) :=
  if (p <? - 2 ^ 31) || (2 ^ 31 - 1 <? p) then Raise OverflowError
  else if (p <? 0) || (1114111 <? p) then Raise ValueError
  else if (55296 <=? p) && (p <=? 57343) then Raise UnicodeEncodeError
  else Ok (utf8 p).

(** The loop over the flattened array. *)
Fixpoint write_samples (ps : list Z) : result (list byte) :=
  match ps with
  | [] => Ok []
  | p :: ps' =>
      match write_chr p with
      | Ok bs =>
          match write_samples ps' with
          | Ok rest => Ok (bs ++ rest)
          | Raise e => Raise e
          | Unmodelled => Unmodelled
          end
      | Raise e => Raise e
      | Unmodelled => Unmodelled
      end
  end.

(** [convert_np_arr_to_pgm]: the content of the output file *)
Definition convert_np_arr_to_pgm (np_arr : raster) : result (list byte) :=
  let header :=
    ["P"%byte; "5"%byte; newline]
    ++ py_str (ncols np_arr) ++ [newline]
    ++ py_str (nrows np_arr) ++ [newline]
    ++ py_str (Z.to_nat MAX_VAL) ++ [newline] in
  match write_samples (concat np_arr) with
  | Ok body => Ok (header ++ body ++ [newline])
  | Raise e => Raise e
  | Unmodelled => Unmodelled
  end.

Definition ex_file_4x4_10 : list byte :=
  ["P"%byte; "5"%byte; newline; "4"%byte; " "%byte; "4"%byte; newline;
   "2"%byte; "5"%byte; "5"%byte; newline;
   x01; x02; x03; x04; x05; x06; x07; x08; x09; x0b].



(** ** The stages in sequence *)

Definition bind {A B} (r : result A) (k : A -> result B) : result B :=
  match r with
  | Ok a => k a
  | Raise e => Raise e
  | Unmodelled => Unmodelled
  end.

(** The stages as [main] calls them, between the loader and the writer. *)
Definition edge_detect (in_np_arr : raster) : result raster :=
  bind (apply_conv_kernel in_np_arr LAPLACIAN) (fun arr_conv =>
  bind (apply_edge_thinning arr_conv) (fun arr_thinned =>
  bind (apply_edge_tracking arr_thinned) (fun arr_edge_trk =>
  Ok (rectify_and_clip arr_edge_trk)))).

(** ** The convolution of the specification *)

(** These three definitions follow the words of the specification, not the
    code: the edge-padded view is a clamped-index accessor, and the response
    at [(y, x)] is the product sum of the kernel with the 3 by 3
    neighbourhood centred at [(y, x)] in that view. *)
Definition clamp (n : nat) (i : Z) : nat :=
  Z.to_nat (Z.max 0 (Z.min i (Z.of_nat n - 1))).

Definition spec_padded_view (a : raster) (y x : Z) : Z :=
  get a (clamp (nrows a) y) (clamp (ncols a) x).

Definition spec_product_sum (kernel a : raster) (y x : nat) : Z :=
  fold_right Z.add 0
    (flat_map
       (fun i =>
          map (fun j =>
                 get kernel i j
                 * spec_padded_view a (Z.of_nat y + Z.of_nat i - 1)
                                      (Z.of_nat x + Z.of_nat j - 1))
              (seq 0 3))
       (seq 0 3)).

(** ** What the loader's loops compute *)

(** The sample stored for position [pos] of the buffer. *)
Definition sample_at (buf : list byte) (pos : nat) : Z :=
  if (pos <? length buf)%nat then Z.of_N (Byte.to_N (nth pos buf x00)) else 0.

(** The warnings of row [y] when the row starts at position [pos]. *)
Definition row_warnings (buf : list byte) (wd y pos : nat) : list log_record :=
  map (fun x => (WARNING, SubstitutingZero y x))
    (filter (fun x => (length buf <= pos + x)%nat) (seq 0 wd)).

(** ** The thinning decision of the specification *)

(** Follows the words of the specification, not the code: the sample at
    [(y, x)] is kept when it is at least the maximum or at most the minimum
    of its own horizontal run or of its own vertical run of three. *)
Definition spec_thinning_keeps (a : raster) (y x : nat) : bool :=
  let c := get a y x in
  let run_x := [get a y (x - 1); c; get a y (x + 1)] in
  let run_y := [get a (y - 1) x; c; get a (y + 1) x] in
  (c >=? py_max run_x) || (c <=? py_min run_x)
  || (c >=? py_max run_y) || (c <=? py_min run_y).

(** ** Header strings *)

(** A string of 7-bit characters that holds no white space, is not empty and
    does not start with the comment mark. *)
Definition header_word (t : list byte) : Prop :=
  t <> []
  /\ Forall (fun b => is_space b = false /\ (Byte.to_N b <? 128)%N = true) t
  /\ Byte.eqb (hd x00 t) "#"%byte = false.

(** ** Loop bodies that write one cell *)

(** [body y x] replaces the sample at [(y, x)] by [F y x] of the sample that
    was there, and touches nothing else. *)
Definition writes_cell (h w : nat) (F : nat -> nat -> Z -> Z)
    (body : nat -> nat -> raster -> raster) (y x : nat) : Prop :=
  forall a, rect h w a ->
    rect h w (body y x a) /\
    forall y' x',
      get (body y x a) y' x'
      = if bool_decide (y' = y /\ x' = x) then F y x (get a y x) else get a y' x'.

(** ** The program *)

(** [main], from the content of the input file to the content of the output
    file: the loader, the four stages and the writer in sequence.  Parsing
    the command line, the lines that [main] itself logs and the exit status
    are left out. *)
Definition main (in_file : list byte) : result (list byte) :=
  bind (snd (convert_pgm_to_np_arr in_file)) (fun in_np_arr =>
  bind (edge_detect in_np_arr) convert_np_arr_to_pgm).

(** ** Layouts of a header *)

(** The header strings [ws], one per line. *)
Definition header_on_lines (ws : list (list byte)) : list byte :=
  concat (map (fun t => t ++ [newline]) ws).

(** The header strings [t] and [ws] on one line, a space between two of
    them. *)
Fixpoint header_on_one_line (t : list byte) (ws : list (list byte)) : list byte :=
  match ws with
  | [] => t ++ [newline]
  | t' :: ws' => t ++ " "%byte :: header_on_one_line t' ws'
  end.

Definition P5 : list byte := ["P"%byte; "5"%byte].

(** ** What the loader returns *)

(** The array that the loops of the loader build from the bytes [buf] after
    the header. *)
Definition loaded_grid (buf : list byte) (wd ht : nat) : raster :=
  map (fun y => map (fun x => sample_at buf (y * wd + x)) (seq 0 wd)) (seq 0 ht).

(** The checks of the loader on the header strings it has collected, and what
    they give when [rest] are the lines that were not read. *)
Definition check_header (pgm_hdr_strings : list (list byte))
    (rest : list (list byte)) : result (nat * nat * nat * list byte) :=
  match pgm_hdr_strings with
  | [magic_num; wd; ht; max_val] =>
      if negb (str_eqb magic_num P5) then Raise (PlainException BadMagic)
      else if negb (isdigit wd && isdigit ht)
      then Raise (PlainException BadDimensions)
      else if negb (isdigit max_val) then Raise (PlainException BadMaxVal)
      else Ok (py_int wd, py_int ht, py_int max_val, concat rest)
  | _ => Raise (PlainException NoHeader)
  end.

(** * Properties *)

(** ** Cells of an array *)

Section cells.
Local Open Scope nat_scope.
Implicit Types (a b : raster) (h w y x : nat) (v : Z).

Lemma get_lookup a y x r v : a !! y = Some r -> r !! x = Some v -> get a y x = v.
Proof.
  intros Hr Hv. unfold get.
  by rewrite (nth_lookup_Some _ _ _ _ Hr), (nth_lookup_Some _ _ _ _ Hv).
Qed.

Lemma rect_lookup h w a y :
  rect h w a -> y < h -> exists r, a !! y = Some r /\ length r = w.
Proof.
  intros [Hl Hf] Hy.
  destruct (lookup_lt_is_Some_2 a y) as [r Hr]; [lia|].
  exists r. split; [done|].
  rewrite Forall_forall in Hf. apply Hf.
  by eapply list_elem_of_lookup_2.
Qed.

Lemma rect_cell h w a y x :
  rect h w a -> y < h -> x < w ->
  exists r, a !! y = Some r /\ length r = w /\ r !! x = Some (get a y x).
Proof.
  intros Hr Hy Hx.
  destruct (rect_lookup _ _ _ _ Hr Hy) as (r & Er & Hlen).
  destruct (lookup_lt_is_Some_2 r x) as [v Ev]; [lia|].
  exists r. by rewrite (get_lookup _ _ _ _ _ Er Ev).
Qed.

Lemma rect_shape h w a : rect h w a -> 0 < h -> nrows a = h /\ ncols a = w.
Proof.
  intros [Hl Hf] Hh. split; [exact Hl|].
  unfold ncols. destruct a as [|r a]; simpl in *; [lia|].
  by inversion Hf.
Qed.

Lemma rect_np_zeros h w : rect h w (np_zeros h w).
Proof.
  split; unfold np_zeros.
  - apply length_replicate.
  - apply Forall_replicate, length_replicate.
Qed.

Lemma get_np_zeros h w y x : get (np_zeros h w) y x = 0%Z.
Proof.
  unfold get, np_zeros. rewrite !nth_lookup.
  destruct (replicate h (replicate w 0%Z) !! y) as [r|] eqn:Er; simpl.
  - apply lookup_replicate_1 in Er as [-> _].
    destruct (replicate w 0%Z !! x) as [v|] eqn:Ev; simpl; [|done].
    by apply lookup_replicate_1 in Ev as [-> _].
  - by destruct x.
Qed.

Lemma rect_set2 h w a y x v : rect h w a -> rect h w (set2 a y x v).
Proof.
  intros [Hl Hf]. unfold set2. split.
  - by rewrite length_alter.
  - apply Forall_alter; [done|]. intros r _ Hr. by rewrite length_insert.
Qed.

Lemma get_set2 h w a y x v y' x' :
  rect h w a -> y < h -> x < w ->
  get (set2 a y x v) y' x'
  = if bool_decide (y' = y /\ x' = x) then v else get a y' x'.
Proof.
  intros Hr Hy Hx.
  destruct (rect_lookup _ _ _ _ Hr Hy) as (r & Er & Hlen).
  unfold get, set2. rewrite !nth_lookup.
  destruct (decide (y' = y)) as [->|Hne].
  - rewrite list_lookup_alter_eq, Er. simpl.
    destruct (decide (x' = x)) as [->|Hnx].
    + rewrite bool_decide_eq_true_2 by done.
      by rewrite list_lookup_insert_eq by lia.
    + rewrite bool_decide_eq_false_2 by tauto.
      by rewrite list_lookup_insert_ne by done.
  - rewrite bool_decide_eq_false_2 by tauto.
    by rewrite list_lookup_alter_ne by done.
Qed.

(** Two arrays of one shape with the same cells are equal. *)
Lemma raster_ext h w a b :
  rect h w a -> rect h w b ->
  (forall y x, y < h -> x < w -> get a y x = get b y x) -> a = b.
Proof.
  intros Ha Hb Hget.
  apply (list_eq_same_length _ _ h); [apply Hb|apply Ha|].
  intros y ra rb Hy Hra Hrb.
  destruct (rect_lookup _ _ _ _ Ha Hy) as (ra' & Ea & Hla).
  destruct (rect_lookup _ _ _ _ Hb Hy) as (rb' & Eb & Hlb).
  assert (ra' = ra) as -> by congruence.
  assert (rb' = rb) as -> by congruence.
  apply (list_eq_same_length _ _ w); [done|done|].
  intros x va vb Hx Hva Hvb.
  specialize (Hget y x Hy Hx).
  by rewrite (get_lookup _ _ _ _ _ Hra Hva), (get_lookup _ _ _ _ _ Hrb Hvb) in Hget.
Qed.

Lemma rect_fmap h w a (g : Z -> Z) : rect h w a -> rect h w (map (map g) a).
Proof.
  intros [Hl Hf]. split.
  - by rewrite length_map.
  - change (map (map g) a) with (map g <$> a).
    apply Forall_fmap. eapply List.Forall_impl; [|exact Hf].
    intros r Hr. simpl. by rewrite length_map.
Qed.

Lemma get_fmap h w a (g : Z -> Z) y x :
  rect h w a -> y < h -> x < w -> get (map (map g) a) y x = g (get a y x).
Proof.
  intros Hr Hy Hx.
  destruct (rect_cell _ _ _ _ _ Hr Hy Hx) as (r & Er & _ & Ev).
  apply (get_lookup _ _ _ (map g r)).
  - change (map (map g) a) with (map g <$> a). by rewrite list_lookup_fmap, Er.
  - change (map g r) with (g <$> r). by rewrite list_lookup_fmap, Ev.
Qed.

Lemma rect_zip_with h w a b (g : Z -> Z -> Z) :
  rect h w a -> rect h w b -> rect h w (zip_with (zip_with g) a b).
Proof.
  intros [Hla Hfa] [Hlb Hfb]. split.
  - rewrite length_zip_with. lia.
  - apply Forall_forall. intros r Hr.
    apply list_elem_of_lookup in Hr as [i Hi].
    apply lookup_zip_with_Some in Hi as (ra & rb & -> & Hra & Hrb).
    rewrite length_zip_with.
    rewrite Forall_forall in Hfa, Hfb.
    rewrite (Hfa ra), (Hfb rb); [lia| |]; by eapply list_elem_of_lookup_2.
Qed.

Lemma get_zip_with h w a b (g : Z -> Z -> Z) y x :
  rect h w a -> rect h w b -> y < h -> x < w ->
  get (zip_with (zip_with g) a b) y x = g (get a y x) (get b y x).
Proof.
  intros Ha Hb Hy Hx.
  destruct (rect_cell _ _ _ _ _ Ha Hy Hx) as (ra & Era & _ & Eva).
  destruct (rect_cell _ _ _ _ _ Hb Hy Hx) as (rb & Erb & _ & Evb).
  apply (get_lookup _ _ _ (zip_with g ra rb)).
  - apply lookup_zip_with_Some. eauto.
  - apply lookup_zip_with_Some. eauto.
Qed.
End cells.

(** ** The nested loops *)

Section loops.
Local Open Scope nat_scope.
Variables (h w : nat) (F : nat -> nat -> Z -> Z).
Variable body : nat -> nat -> raster -> raster.

Ltac loop_cases :=
  repeat case_bool_decide; try done;
  repeat match goal with
         | H : context [_ ∈ _ :: _] |- _ => rewrite elem_of_cons in H
         end;
  intuition congruence.

Lemma inner_loop_spec y xs :
  NoDup xs ->
  (forall x, x ∈ xs -> writes_cell h w F body y x) ->
  forall a, rect h w a ->
    rect h w (fold_left (fun a x => body y x a) xs a) /\
    forall y' x',
      get (fold_left (fun a x => body y x a) xs a) y' x'
      = if bool_decide (y' = y /\ x' ∈ xs) then F y x' (get a y' x') else get a y' x'.
Proof.
  induction xs as [|x xs IH]; intros Hnd Hw a Ha; simpl.
  - split; [done|]. intros y' x'.
    rewrite bool_decide_eq_false_2; [done|]. intros [_ H]. by apply elem_of_nil in H.
  - apply NoDup_cons in Hnd as [Hx Hnd].
    destruct (Hw x (list_elem_of_here _ _) a Ha) as [Ha' Hget'].
    destruct (IH Hnd (fun x' Hx' => Hw x' (list_elem_of_further _ _ _ Hx'))
                (body y x a) Ha') as [Hr Hget].
    split; [done|]. intros y' x'. rewrite Hget, !Hget'.
    loop_cases.
Qed.

Lemma for_each2_spec ys xs :
  NoDup ys -> NoDup xs ->
  (forall y x, y ∈ ys -> x ∈ xs -> writes_cell h w F body y x) ->
  forall a, rect h w a ->
    rect h w (for_each2 ys xs body a) /\
    forall y' x',
      get (for_each2 ys xs body a) y' x'
      = if bool_decide (y' ∈ ys /\ x' ∈ xs) then F y' x' (get a y' x') else get a y' x'.
Proof.
  intros Hnd Hndx. unfold for_each2.
  induction ys as [|y ys IH]; intros Hw a Ha; simpl.
  - split; [done|]. intros y' x'. reflexivity.
  - apply NoDup_cons in Hnd as [Hy Hnd].
    destruct (inner_loop_spec y xs Hndx
                (fun x Hx => Hw y x (list_elem_of_here _ _) Hx) a Ha) as [Ha' Hget'].
    destruct (IH Hnd (fun y' x' Hy' Hx' => Hw y' x' (list_elem_of_further _ _ _ Hy') Hx')
                _ Ha') as [Hr Hget].
    split; [done|]. intros y' x'. rewrite Hget, !Hget'.
    loop_cases.
Qed.
End loops.

Section bodies.
Local Open Scope nat_scope.
Variables (h w : nat).

(** An assignment [a[y][x] = v] under a condition, where neither depends on
    the array that is written. *)
Lemma writes_cell_cond (c : nat -> nat -> bool) (v : nat -> nat -> Z) y x :
  y < h -> x < w ->
  writes_cell h w (fun y x old => if c y x then v y x else old)
    (fun y x a => if c y x then set2 a y x (v y x) else a) y x.
Proof.
  intros Hy Hx a Ha. destruct (c y x).
  - split; [by apply rect_set2|]. intros y' x'. by apply (get_set2 h w).
  - split; [done|]. intros y' x'. case_bool_decide as Hc; [by destruct Hc as [-> ->]|done].
Qed.

(** An assignment [a[y][x] = g(a[y][x])]. *)
Lemma writes_cell_inplace (g : Z -> Z) y x :
  y < h -> x < w ->
  writes_cell h w (fun _ _ old => g old)
    (fun y x a => set2 a y x (g (get a y x))) y x.
Proof.
  intros Hy Hx a Ha.
  split; [by apply rect_set2|]. intros y' x'. by apply (get_set2 h w).
Qed.

Lemma elem_of_range lo hi i : i ∈ range lo hi <-> lo <= i < hi.
Proof. unfold range. rewrite elem_of_seq. lia. Qed.

Lemma NoDup_range lo hi : NoDup (range lo hi).
Proof. apply NoDup_seq. Qed.
End bodies.

Section stage_loops.
Local Open Scope nat_scope.
Variables (h w : nat).

(** The loop shape shared by the stages: cells of the block
    [ly <= y < hy], [lx <= x < hx] are assigned [v y x] where [c y x] holds. *)
Lemma cond_loop_spec ly hy lx hx (c : nat -> nat -> bool) (v : nat -> nat -> Z) a0 :
  hy <= h -> hx <= w -> rect h w a0 ->
  rect h w (for_each2 (range ly hy) (range lx hx)
              (fun y x a => if c y x then set2 a y x (v y x) else a) a0) /\
  forall y x,
    get (for_each2 (range ly hy) (range lx hx)
           (fun y x a => if c y x then set2 a y x (v y x) else a) a0) y x
    = if bool_decide ((ly <= y < hy) /\ (lx <= x < hx))
      then (if c y x then v y x else get a0 y x)
      else get a0 y x.
Proof.
  intros Hhy Hhx Ha.
  destruct (for_each2_spec h w (fun y x old => if c y x then v y x else old)
              (fun y x a => if c y x then set2 a y x (v y x) else a)
              (range ly hy) (range lx hx) (NoDup_range _ _) (NoDup_range _ _))
    with (a := a0) as [Hr Hget]; [|done|].
  { intros y x Hy%elem_of_range Hx%elem_of_range.
    apply (writes_cell_cond h w c v); lia. }
  split; [done|]. intros y x. rewrite Hget.
  apply (f_equal (fun b : bool => if b then _ else _)).
  apply bool_decide_ext. by rewrite !elem_of_range.
Qed.

(** The same for a body that is equal to that shape cell by cell. *)
Lemma cond_loop_spec_ext ly hy lx hx body
    (c : nat -> nat -> bool) (v : nat -> nat -> Z) a0 :
  (forall y x a, body y x a = if c y x then set2 a y x (v y x) else a) ->
  hy <= h -> hx <= w -> rect h w a0 ->
  rect h w (for_each2 (range ly hy) (range lx hx) body a0) /\
  forall y x,
    get (for_each2 (range ly hy) (range lx hx) body a0) y x
    = if bool_decide ((ly <= y < hy) /\ (lx <= x < hx))
      then (if c y x then v y x else get a0 y x)
      else get a0 y x.
Proof.
  intros Hb.
  assert (E : for_each2 (range ly hy) (range lx hx) body a0
              = for_each2 (range ly hy) (range lx hx)
                  (fun y x a => if c y x then set2 a y x (v y x) else a) a0).
  { assert (Ein : forall y xs a,
              fold_left (fun a x => body y x a) xs a
              = fold_left (fun a x => if c y x then set2 a y x (v y x) else a) xs a).
    { intros y xs. induction xs as [|x xs IHx]; intros a; simpl; [done|].
      by rewrite IHx, Hb. }
    unfold for_each2. generalize a0.
    induction (range ly hy) as [|y ys IH]; intros a; simpl; [done|].
    by rewrite IH, Ein. }
  rewrite E. apply cond_loop_spec.
Qed.
End stage_loops.

(** ** Arrays without an empty axis *)

Lemma has_empty_axis_false (h w : nat) (a : raster) :
  rect h w a -> (0 < h)%nat -> (0 < w)%nat ->
  has_empty_axis a = false /\ nrows a = h /\ ncols a = w.
Proof.
  intros Ha Hh Hw. destruct (rect_shape _ _ _ Ha Hh) as [En Ec].
  unfold has_empty_axis. rewrite En, Ec.
  repeat split. apply orb_false_iff. split; apply Nat.eqb_neq; lia.
Qed.

Lemma wrap64_small (z : Z) : int64 z -> wrap64 z = z.
Proof.
  unfold int64, wrap64. intros Hz.
  rewrite Z.mod_small; lia.
Qed.

(** ** The padded copy *)

Section padded_view.
Local Open Scope nat_scope.

Lemma last_nth {A} (l : list A) (d d' : A) :
  l <> [] -> List.last l d = nth (length l - 1) l d'.
Proof.
  induction l as [|v l IH]; [done|]. intros _.
  destruct l as [|v' l]; [reflexivity|].
  change (List.last (v :: v' :: l) d) with (List.last (v' :: l) d).
  rewrite IH by done. simpl. by rewrite Nat.sub_0_r.
Qed.

Lemma length_pad1 {A} (d : A) (l : list A) : length (pad1 d l) = length l + 2.
Proof. unfold pad1. simpl. rewrite length_app. simpl. lia. Qed.

(** Element [i] of a padded axis is element [i - 1] of the axis, clamped. *)
Lemma nth_pad1 {A} (d d' : A) (l : list A) (i : nat) :
  l <> [] -> i <= length l + 1 ->
  nth i (pad1 d l) d' = nth (clamp (length l) (Z.of_nat i - 1)) l d'.
Proof.
  intros Hne Hi. unfold pad1, clamp.
  assert (0 < length l) by (destruct l; [done|simpl; lia]).
  destruct i as [|i].
  - replace (Z.to_nat _) with 0 by lia. by destruct l.
  - simpl nth.
    destruct (decide (i < length l)) as [Hlt|Hge].
    + rewrite app_nth1 by done. f_equal. lia.
    + replace i with (length l) by lia.
      rewrite nth_middle, (last_nth l d d') by done. f_equal. lia.
Qed.

Variables (h w : nat) (a : raster).
Hypothesis Ha : rect h w a.
Hypothesis Hh : 0 < h.
Hypothesis Hw : 0 < w.

Lemma nth_row_clamped (i : Z) : length (nth (clamp h i) a []) = w.
Proof.
  destruct (rect_lookup h w a (clamp h i) Ha) as (r & Er & Hlen).
  { unfold clamp. lia. }
  by rewrite (nth_lookup_Some _ _ _ _ Er).
Qed.

Lemma nth_np_pad_edge (i : nat) :
  i < h + 2 ->
  nth i (np_pad_edge a) [] = pad1 0%Z (nth (clamp h (Z.of_nat i - 1)) a []).
Proof.
  intros Hi. destruct Ha as [Hl _]. unfold np_pad_edge.
  assert (Hne : map (pad1 0%Z) a <> []) by (destruct a; [simpl in Hl; lia|done]).
  rewrite (nth_pad1 [] [] _ i Hne) by (rewrite length_map; lia).
  rewrite length_map, Hl.
  rewrite (nth_indep _ [] (pad1 0%Z [])) by (rewrite length_map; unfold clamp; lia).
  apply map_nth.
Qed.

Lemma length_nth_np_pad_edge (i : nat) :
  i < h + 2 -> length (nth i (np_pad_edge a) []) = w + 2.
Proof.
  intros Hi. by rewrite nth_np_pad_edge, length_pad1, nth_row_clamped.
Qed.

(** The padded copy is the clamped-index view of the specification. *)
Lemma get_np_pad_edge (i j : nat) :
  i < h + 2 -> j < w + 2 ->
  get (np_pad_edge a) i j
  = spec_padded_view a (Z.of_nat i - 1) (Z.of_nat j - 1).
Proof.
  intros Hi Hj. unfold get, spec_padded_view.
  destruct (rect_shape _ _ _ Ha Hh) as [-> ->].
  rewrite nth_np_pad_edge by done.
  pose proof (nth_row_clamped (Z.of_nat i - 1)) as Hlen.
  rewrite nth_pad1; rewrite ?Hlen; [reflexivity| |lia].
  intros E. rewrite E in Hlen. simpl in Hlen. lia.
Qed.

(** The padded copy at [(i, j)] is the input at [(i - 1, j - 1)], clamped. *)
Lemma get_np_pad_edge_nat (i j : nat) :
  i < h + 2 -> j < w + 2 ->
  get (np_pad_edge a) i j = get a (Nat.min (i - 1) (h - 1)) (Nat.min (j - 1) (w - 1)).
Proof.
  intros Hi Hj. rewrite get_np_pad_edge by done.
  unfold spec_padded_view.
  destruct (rect_shape _ _ _ Ha Hh) as [-> ->].
  unfold clamp. f_equal; lia.
Qed.
End padded_view.

Lemma slice_3 {A} (d : A) (l : list A) (x : nat) :
  (x + 3 <= length l)%nat ->
  slice x (x + 3) l = [nth x l d; nth (x + 1) l d; nth (x + 2) l d].
Proof.
  unfold slice. replace (x + 3 - x)%nat with 3%nat by lia.
  revert l. induction x as [|x IH]; intros l Hl.
  - destruct l as [|v0 [|v1 [|v2 l]]]; simpl in Hl; try lia. reflexivity.
  - destruct l as [|v l]; simpl in Hl; [lia|].
    simpl. apply IH. lia.
Qed.

(** ** The convolution stage *)

Lemma pad1_replicate {A} (d v : A) (n : nat) :
  pad1 d (replicate (S n) v) = replicate (S (S (S n))) v.
Proof.
  unfold pad1. simpl. do 2 f_equal.
  induction n as [|n IH]; simpl; [reflexivity|].
  f_equal. destruct n; exact IH.
Qed.

Lemma slice_replicate {A} (v : A) (lo hi n : nat) :
  (hi <= n)%nat -> slice lo hi (replicate n v) = replicate (hi - lo) v.
Proof.
  intros Hn. unfold slice.
  rewrite drop_replicate, take_replicate. f_equal. lia.
Qed.

(** Removes the [wrap64] around an expression that [lia] bounds, innermost
    first. *)
Ltac unwrap64 :=
  repeat match goal with
         | |- context [wrap64 ?z] =>
             lazymatch z with
             | context [wrap64 _] => fail
             | _ => rewrite (wrap64_small z) by (unfold int64; lia)
             end
         end.

Lemma laplacian_of_uniform (v : Z) :
  0 <= v <= 255 ->
  np_sum (np_mul (replicate 3 (replicate 3 v)) LAPLACIAN) = 0.
Proof.
  intros Hv. unfold np_sum, np_mul, LAPLACIAN. simpl.
  unwrap64. lia.
Qed.

(** The cells of the output of [apply_conv_kernel]: the loops stop two rows
    and two columns short of the array. *)
Lemma conv_cells (h w : nat) (a k : raster) :
  rect h w a -> (0 < h)%nat -> (0 < w)%nat ->
  nrows k = 3%nat -> ncols k = 3%nat ->
  exists out,
    apply_conv_kernel a k = Ok out /\ rect h w out /\
    forall y x,
      get out y x
      = if bool_decide ((0 <= y < h - 2)%nat /\ (0 <= x < w - 2)%nat)
        then np_sum (np_mul (slice2 y (y + 3) x (x + 3) (np_pad_edge a)) k)
        else 0.
Proof.
  intros Ha Hh Hw Hk1 Hk2.
  destruct (has_empty_axis_false _ _ _ Ha Hh Hw) as (Ee & En & Ec).
  unfold apply_conv_kernel. rewrite Ee, En, Ec, Hk1, Hk2. simpl.
  eexists. split; [reflexivity|].
  destruct (cond_loop_spec_ext h w 0 (h - 2) 0 (w - 2)
              (fun y x arr_conv =>
                 set2 arr_conv y x
                   (np_sum (np_mul (slice2 y (y + 3) x (x + 3) (np_pad_edge a)) k)))
              (fun _ _ => true)
              (fun y x => np_sum (np_mul (slice2 y (y + 3) x (x + 3) (np_pad_edge a)) k))
              (np_zeros h w))
    as [Hr Hget]; [done|lia|lia|apply rect_np_zeros|].
  split; [exact Hr|]. intros y x.
  etransitivity; [apply Hget|]. by rewrite get_np_zeros.
Qed.

Lemma np_pad_edge_uniform (h w : nat) (v : Z) :
  np_pad_edge (replicate (S h) (replicate (S w) v))
  = replicate (S (S (S h))) (replicate (S (S (S w))) v).
Proof.
  unfold np_pad_edge.
  change (map (pad1 0) (replicate (S h) (replicate (S w) v)))
    with (pad1 0 <$> replicate (S h) (replicate (S w) v)).
  rewrite fmap_replicate, pad1_replicate. by rewrite pad1_replicate.
Qed.

Lemma wrap64_add_l (p q : Z) : wrap64 (wrap64 p + q) = wrap64 (p + q).
Proof.
  unfold wrap64. f_equal.
  replace ((p + 2 ^ 63) mod 2 ^ 64 - 2 ^ 63 + q + 2 ^ 63)
    with ((p + 2 ^ 63) mod 2 ^ 64 + q) by lia.
  rewrite Zplus_mod_idemp_l. f_equal. lia.
Qed.

Lemma wrap64_add_r (p q : Z) : wrap64 (p + wrap64 q) = wrap64 (p + q).
Proof. by rewrite Z.add_comm, wrap64_add_l, Z.add_comm. Qed.

Lemma row_3_inv (r : list Z) :
  length r = 3%nat -> exists p q s, r = [p; q; s].
Proof.
  destruct r as [|p [|q [|s [|]]]]; simpl; intros E; try discriminate. eauto.
Qed.

Lemma rect_3x3_inv (k : raster) :
  rect 3 3 k -> exists r0 r1 r2, k = [r0; r1; r2]
    /\ length r0 = 3%nat /\ length r1 = 3%nat /\ length r2 = 3%nat.
Proof.
  intros [Hl Hf].
  destruct k as [|r0 [|r1 [|r2 [|]]]]; simpl in Hl; try discriminate.
  apply Forall_cons in Hf as [H0 Hf].
  apply Forall_cons in Hf as [H1 Hf].
  apply Forall_cons in Hf as [H2 _].
  eauto 10.
Qed.

Lemma fold_wrap64 (l : list Z) (s : Z) :
  fold_left (fun s v => wrap64 (s + v)) l (wrap64 s)
  = wrap64 (s + fold_right Z.add 0 l).
Proof.
  revert s. induction l as [|v l IH]; intros s; cbn [fold_left fold_right].
  - by rewrite Z.add_0_r.
  - by rewrite wrap64_add_l, IH, Z.add_assoc.
Qed.

Lemma wrap64_sum_wrapped (l : list Z) :
  wrap64 (fold_right Z.add 0 (map wrap64 l)) = wrap64 (fold_right Z.add 0 l).
Proof.
  induction l as [|v l IH]; cbn [map fold_right]; [reflexivity|].
  by rewrite wrap64_add_l, <- wrap64_add_r, IH, wrap64_add_r.
Qed.

(** A sum of wrapped products is the wrapped sum of the products. *)
Lemma sum_of_wrapped (l : list Z) :
  fold_left (fun s v => wrap64 (s + v)) (map wrap64 l) 0
  = wrap64 (fold_right Z.add 0 l).
Proof.
  change 0 with (wrap64 0) at 1.
  by rewrite fold_wrap64, Z.add_0_l, wrap64_sum_wrapped.
Qed.

Lemma np_sum_np_mul_3x3 (s00 s01 s02 s10 s11 s12 s20 s21 s22 : Z)
    (k00 k01 k02 k10 k11 k12 k20 k21 k22 : Z) :
  np_sum (np_mul [[s00; s01; s02]; [s10; s11; s12]; [s20; s21; s22]]
                 [[k00; k01; k02]; [k10; k11; k12]; [k20; k21; k22]])
  = wrap64 (k00 * s00 + (k01 * s01 + (k02 * s02
            + (k10 * s10 + (k11 * s11 + (k12 * s12
            + (k20 * s20 + (k21 * s21 + (k22 * s22 + 0))))))))).
Proof.
  unfold np_sum, np_mul. cbn [zip_with concat app].
  change [wrap64 (s00 * k00); wrap64 (s01 * k01); wrap64 (s02 * k02);
          wrap64 (s10 * k10); wrap64 (s11 * k11); wrap64 (s12 * k12);
          wrap64 (s20 * k20); wrap64 (s21 * k21); wrap64 (s22 * k22)]
    with (map wrap64 [s00 * k00; s01 * k01; s02 * k02;
                      s10 * k10; s11 * k11; s12 * k12;
                      s20 * k20; s21 * k21; s22 * k22]).
  rewrite sum_of_wrapped. apply (f_equal wrap64).
  cbn [fold_right]. ring.
Qed.

(** On the cells it computes, [apply_conv_kernel] gives the product sum of the
    specification, reduced to 64 bits; the cells of the last two rows and of
    the last two columns are 0. *)
Lemma conv_computed_cells (h w : nat) (a k : raster) :
  rect h w a -> (0 < h)%nat -> (0 < w)%nat -> rect 3 3 k ->
  exists out,
    apply_conv_kernel a k = Ok out /\ rect h w out /\
    forall y x, (y < h)%nat -> (x < w)%nat ->
      get out y x
      = if ((y <? h - 2) && (x <? w - 2))%nat
        then wrap64 (spec_product_sum k a y x)
        else 0.
Proof.
  intros Ha Hh Hw Hk.
  destruct (rect_shape _ _ _ Hk) as [Hk1 Hk2]; [lia|].
  destruct (conv_cells h w a k Ha Hh Hw Hk1 Hk2) as (out & Eo & Hr & Hget).
  exists out. split; [done|]. split; [done|].
  intros y x Hy Hx. rewrite Hget.
  destruct (Nat.ltb_spec y (h - 2)) as [Hy2|Hy2];
    destruct (Nat.ltb_spec x (w - 2)) as [Hx2|Hx2]; cbn [andb];
    try (rewrite bool_decide_eq_false_2 by lia; reflexivity).
  rewrite bool_decide_eq_true_2 by lia.
  unfold slice2.
  rewrite (slice_3 [] (np_pad_edge a) y); last first.
  { unfold np_pad_edge. rewrite length_pad1, length_map.
    destruct Ha as [-> _]. lia. }
  cbn [map].
  rewrite !(slice_3 0) by (rewrite (length_nth_np_pad_edge h w) by (done || lia); lia).
  fold (get (np_pad_edge a) y x) (get (np_pad_edge a) y (x + 1))
       (get (np_pad_edge a) y (x + 2)).
  fold (get (np_pad_edge a) (y + 1) x) (get (np_pad_edge a) (y + 1) (x + 1))
       (get (np_pad_edge a) (y + 1) (x + 2)).
  fold (get (np_pad_edge a) (y + 2) x) (get (np_pad_edge a) (y + 2) (x + 1))
       (get (np_pad_edge a) (y + 2) (x + 2)).
  rewrite !(get_np_pad_edge h w) by (done || lia).
  destruct (rect_3x3_inv k Hk) as (r0 & r1 & r2 & -> & H0 & H1 & H2).
  destruct (row_3_inv r0 H0) as (k00 & k01 & k02 & ->).
  destruct (row_3_inv r1 H1) as (k10 & k11 & k12 & ->).
  destruct (row_3_inv r2 H2) as (k20 & k21 & k22 & ->).
  rewrite np_sum_np_mul_3x3. apply (f_equal wrap64).
  unfold spec_product_sum.
  cbn [seq flat_map map app fold_right get nth].
  replace (Z.of_nat (y + 1)) with (Z.of_nat y + 1) by lia.
  replace (Z.of_nat (y + 2)) with (Z.of_nat y + 2) by lia.
  replace (Z.of_nat (x + 1)) with (Z.of_nat x + 1) by lia.
  replace (Z.of_nat (x + 2)) with (Z.of_nat x + 2) by lia.
  change (Z.of_nat 0) with 0. change (Z.of_nat 1) with 1. change (Z.of_nat 2) with 2.
  replace (Z.of_nat y + 0 - 1) with (Z.of_nat y - 1) by lia.
  replace (Z.of_nat x + 0 - 1) with (Z.of_nat x - 1) by lia.
  reflexivity.
Qed.

(** C1. On the 3 by 3 array of the samples 1 to 9 the output of
    [apply_conv_kernel] has the shape of the input, and only its cell
    [(0, 0)] is computed: the loops run over [range(shape - 2)].  The cell
    [(2, 2)] is 0, while the product sum of the kernel with the neighbourhood
    of [(2, 2)] in the edge-padded view is 12. *)
Theorem conv_leaves_last_rows_and_columns_zero :
  apply_conv_kernel [[1; 2; 3]; [4; 5; 6]; [7; 8; 9]] LAPLACIAN
  = Ok [[-12; 0; 0]; [0; 0; 0]; [0; 0; 0]]
  /\ spec_product_sum LAPLACIAN [[1; 2; 3]; [4; 5; 6]; [7; 8; 9]] 0 0 = -12
  /\ spec_product_sum LAPLACIAN [[1; 2; 3]; [4; 5; 6]; [7; 8; 9]] 2 2 = 12.
Proof. repeat split; vm_compute; reflexivity. Qed.

(** C8. Convolving an array whose samples all equal one value in [0, 255]
    with the Laplacian kernel gives the array of zeros of the same shape. *)
Theorem conv_laplacian_uniform_zero (h w : nat) (v : Z) :
  (0 < h)%nat -> (0 < w)%nat -> 0 <= v <= 255 ->
  apply_conv_kernel (replicate h (replicate w v)) LAPLACIAN = Ok (np_zeros h w).
Proof.
  intros Hh Hw Hv.
  assert (Ha : rect h w (replicate h (replicate w v))).
  { split; [apply length_replicate|apply Forall_replicate, length_replicate]. }
  destruct (conv_cells h w _ LAPLACIAN Ha Hh Hw eq_refl eq_refl)
    as (out & -> & Hr & Hget).
  f_equal. apply (raster_ext h w); [done|apply rect_np_zeros|].
  intros y x Hy Hx. rewrite Hget, get_np_zeros.
  case_bool_decide as Hin; [|reflexivity].
  destruct h as [|h]; [lia|]. destruct w as [|w]; [lia|].
  rewrite np_pad_edge_uniform. unfold slice2.
  rewrite slice_replicate by lia.
  change (map (slice x (x + 3)) (replicate (y + 3 - y) (replicate (S (S (S w))) v)))
    with (slice x (x + 3) <$> replicate (y + 3 - y) (replicate (S (S (S w))) v)).
  rewrite fmap_replicate, slice_replicate by lia.
  replace (y + 3 - y)%nat with 3%nat by lia.
  replace (x + 3 - x)%nat with 3%nat by lia.
  by apply laplacian_of_uniform.
Qed.

Lemma conv_laplacian_uniform_zero_witness :
  apply_conv_kernel (replicate 4 (replicate 5 100)) LAPLACIAN = Ok (np_zeros 4 5).
Proof. apply (conv_laplacian_uniform_zero 4 5 100); lia. Defined.

(** C6. For a kernel that is not 3 by 3 [apply_conv_kernel] returns no
    array, and the exception is never the NotImplementedError of the
    [raise] statement: it is the ValueError of [np.pad] when the input has an
    empty axis, and otherwise the TypeError of the call
    [conv_kernel_np.shape()] inside the message. *)
Theorem conv_kernel_not_3x3_raises_type_error (a k : raster) :
  (nrows k, ncols k) <> (3%nat, 3%nat) ->
  apply_conv_kernel a k
  = if has_empty_axis a then Raise ValueError else Raise TypeError.
Proof.
  intros Hk. unfold apply_conv_kernel.
  destruct (has_empty_axis a); [reflexivity|].
  destruct (Nat.eqb_spec (nrows k) 3) as [E1|N1];
    destruct (Nat.eqb_spec (ncols k) 3) as [E2|N2]; simpl; try reflexivity.
  congruence.
Qed.

Lemma conv_kernel_not_3x3_raises_type_error_witness :
  apply_conv_kernel [[1; 2; 3]; [4; 5; 6]; [7; 8; 9]] [[1; 1]; [1; 1]]
  = Raise TypeError.
Proof.
  apply (conv_kernel_not_3x3_raises_type_error
           [[1; 2; 3]; [4; 5; 6]; [7; 8; 9]] [[1; 1]; [1; 1]]).
  simpl. congruence.
Defined.

(** ** The thinning stage *)

Section thinning.
Local Open Scope nat_scope.
Variables (h w : nat) (a : raster).
Hypothesis Ha : rect h w a.
Hypothesis Hh : 0 < h.
Hypothesis Hw : 0 < w.

(** The decision that [apply_edge_thinning] takes for the cell [(y, x)] is
    the decision of the specification for the cell [(y - 1, x - 1)]. *)
Lemma thinning_decision (y x : nat) :
  1 <= y < h - 1 -> 1 <= x < w - 1 ->
  let arr_padded := np_pad_edge a in
  let center_pxl := get arr_padded y x in
  ((center_pxl >=? py_max (slice (x - 1) (x + 2) (nth y arr_padded [])))
   || (center_pxl <=? py_min (slice (x - 1) (x + 2) (nth y arr_padded [])))
   || (center_pxl >=? py_max (column (y - 1) (y + 2) x arr_padded))
   || (center_pxl <=? py_min (column (y - 1) (y + 2) x arr_padded)))%Z
  = spec_thinning_keeps a (y - 1) (x - 1).
Proof.
  intros Hy Hx. cbv zeta.
  replace (x + 2) with (x - 1 + 3) by lia.
  replace (y + 2) with (y - 1 + 3) by lia.
  unfold column.
  rewrite (slice_3 0%Z (nth y (np_pad_edge a) []))
    by (rewrite (length_nth_np_pad_edge h w) by (done || lia); lia).
  rewrite (slice_3 [] (np_pad_edge a)); last first.
  { unfold np_pad_edge. rewrite length_pad1, length_map.
    destruct Ha as [-> _]. lia. }
  cbn [map].
  fold (get (np_pad_edge a) y (x - 1)) (get (np_pad_edge a) y (x - 1 + 1))
       (get (np_pad_edge a) y (x - 1 + 2)).
  fold (get (np_pad_edge a) (y - 1) x) (get (np_pad_edge a) (y - 1 + 1) x)
       (get (np_pad_edge a) (y - 1 + 2) x).
  rewrite !(get_np_pad_edge_nat h w) by (done || lia).
  unfold spec_thinning_keeps.
  replace (Nat.min (y - 1) (h - 1)) with (y - 1) by lia.
  replace (Nat.min (x - 1) (w - 1)) with (x - 1) by lia.
  replace (Nat.min (x - 1 - 1) (w - 1)) with (x - 1 - 1) by lia.
  replace (Nat.min (x - 1 + 1 - 1) (w - 1)) with (x - 1) by lia.
  replace (Nat.min (x - 1 + 2 - 1) (w - 1)) with (x - 1 + 1) by lia.
  replace (Nat.min (y - 1 - 1) (h - 1)) with (y - 1 - 1) by lia.
  replace (Nat.min (y - 1 + 1 - 1) (h - 1)) with (y - 1) by lia.
  replace (Nat.min (y - 1 + 2 - 1) (h - 1)) with (y - 1 + 1) by lia.
  reflexivity.
Qed.

(** The cells of the output of [apply_edge_thinning]: an interior cell
    [(y, x)] keeps its input sample when the sample at [(y - 1, x - 1)] is an
    extreme of its runs; the border is zero. *)
Lemma edge_thinning_cells :
  exists out,
    apply_edge_thinning a = Ok out /\ rect h w out /\
    forall y x,
      get out y x
      = if bool_decide ((1 <= y < h - 1) /\ (1 <= x < w - 1))
        then (if spec_thinning_keeps a (y - 1) (x - 1) then get a y x else 0%Z)
        else 0%Z.
Proof.
  destruct (has_empty_axis_false _ _ _ Ha Hh Hw) as (Ee & En & Ec).
  unfold apply_edge_thinning. rewrite Ee, En, Ec.
  eexists. split; [reflexivity|].
  edestruct (cond_loop_spec_ext h w 1 (h - 1) 1 (w - 1)) as [Hr Hget];
    [| | |apply rect_np_zeros|split; [exact Hr|]]; [|lia|lia|].
  - intros y x a'.
    instantiate (1 := fun y x => get a y x).
    instantiate (1 := fun y x =>
      let arr_padded := np_pad_edge a in
      let center_pxl := get arr_padded y x in
      ((center_pxl >=? py_max (slice (x - 1) (x + 2) (nth y arr_padded [])))
       || (center_pxl <=? py_min (slice (x - 1) (x + 2) (nth y arr_padded [])))
       || (center_pxl >=? py_max (column (y - 1) (y + 2) x arr_padded))
       || (center_pxl <=? py_min (column (y - 1) (y + 2) x arr_padded)))%Z).
    reflexivity.
  - intros y x. etransitivity; [apply Hget|]. rewrite get_np_zeros.
    case_bool_decide as Hin; [|reflexivity].
    by rewrite thinning_decision by lia.
Qed.

End thinning.

(** C2. On a 3 by 3 array whose centre sample 1 lies strictly between its
    two neighbours in its row, 0 and 2, and in its column, 0 and 2,
    [apply_edge_thinning] keeps the centre sample: the sample compared and
    its two runs are read from [arr_padded] at [(y, x)], which is the
    neighbourhood of the input sample at [(y - 1, x - 1)], here the corner
    sample 5. *)
Theorem edge_thinning_decides_on_the_upper_left_neighbour :
  apply_edge_thinning [[5; 0; 0]; [0; 1; 2]; [0; 2; 0]]
  = Ok [[0; 0; 0]; [0; 1; 0]; [0; 0; 0]]
  /\ spec_thinning_keeps [[5; 0; 0]; [0; 1; 2]; [0; 2; 0]] 1 1 = false.
Proof. repeat split; vm_compute; reflexivity. Qed.

(** ** The hysteresis stage *)

Section tracking.
Local Open Scope nat_scope.
Variables (h w : nat) (a : raster).
Hypothesis Ha : rect h w a.
Hypothesis Hh : 0 < h.
Hypothesis Hw : 0 < w.

Lemma strong_pass_spec :
  rect h w (strong_pass a (np_pad_edge a)) /\
  forall y x,
    get (strong_pass a (np_pad_edge a)) y x
    = if bool_decide ((1 <= y < h - 1) /\ (1 <= x < w - 1))
      then (if ((get (np_pad_edge a) y x >? THRESH_HI)
                || (get (np_pad_edge a) y x <? - THRESH_HI))%Z
            then get a y x else 0%Z)
      else 0%Z.
Proof.
  destruct (has_empty_axis_false _ _ _ Ha Hh Hw) as (_ & En & Ec).
  unfold strong_pass. rewrite En, Ec.
  destruct (cond_loop_spec h w 1 (h - 1) 1 (w - 1)
              (fun y x => ((get (np_pad_edge a) y x >? THRESH_HI)
                           || (get (np_pad_edge a) y x <? - THRESH_HI))%Z)
              (fun y x => get a y x) (np_zeros h w))
    as [Hr Hget]; [lia|lia|apply rect_np_zeros|].
  split; [exact Hr|]. intros y x.
  etransitivity; [apply Hget|]. by rewrite get_np_zeros.
Qed.

Lemma weak_pass_spec (s : raster) :
  rect h w (weak_pass a (np_pad_edge a) s) /\
  forall y x,
    get (weak_pass a (np_pad_edge a) s) y x
    = if bool_decide ((1 <= y < h - 1) /\ (1 <= x < w - 1))
      then (if (negb (get s y x >? 0)
                && ((get (np_pad_edge a) y x >? THRESH_LO)
                    || (get (np_pad_edge a) y x <? - THRESH_LO))
                && np_any (slice2 (y - 1) (y + 2) (x - 1) (x + 2) s))%Z
            then get a y x else 0%Z)
      else 0%Z.
Proof.
  destruct (has_empty_axis_false _ _ _ Ha Hh Hw) as (_ & En & Ec).
  unfold weak_pass. rewrite En, Ec.
  edestruct (cond_loop_spec_ext h w 1 (h - 1) 1 (w - 1)) as [Hr Hget];
    [| | |apply rect_np_zeros|split; [exact Hr|]]; [|lia|lia|].
  - intros y x a'.
    instantiate (1 := fun y x => get a y x).
    instantiate (1 := fun y x =>
      (negb (get s y x >? 0)
       && ((get (np_pad_edge a) y x >? THRESH_LO)
           || (get (np_pad_edge a) y x <? - THRESH_LO))
       && np_any (slice2 (y - 1) (y + 2) (x - 1) (x + 2) s))%Z).
    simpl. destruct (get s y x >? 0)%Z; simpl; [done|].
    destruct ((get (np_pad_edge a) y x >? THRESH_LO)
              || (get (np_pad_edge a) y x <? - THRESH_LO))%Z; simpl; [|done].
    done.
  - intros y x. etransitivity; [apply Hget|]. by rewrite get_np_zeros.
Qed.

(** The cells of the strong grid: an interior cell [(y, x)] holds its input
    sample when the sample at [(y - 1, x - 1)] is beyond THRESH_HI. *)
Lemma strong_pass_cells (y x : nat) :
  get (strong_pass a (np_pad_edge a)) y x
  = if bool_decide ((1 <= y < h - 1) /\ (1 <= x < w - 1))
    then (if ((get a (y - 1) (x - 1) >? THRESH_HI)
              || (get a (y - 1) (x - 1) <? - THRESH_HI))%Z
          then get a y x else 0%Z)
    else 0%Z.
Proof.
  destruct strong_pass_spec as [_ Hs]. rewrite Hs.
  case_bool_decide as Hin; [|reflexivity].
  rewrite (get_np_pad_edge_nat h w) by (done || lia).
  replace (Nat.min (y - 1) (h - 1)) with (y - 1) by lia.
  replace (Nat.min (x - 1) (w - 1)) with (x - 1) by lia.
  reflexivity.
Qed.
End tracking.

(** C10. For an array of [h] by [w] samples, [apply_edge_tracking] returns an
    array of that shape whose first and last row and first and last column
    are zero: both passes assign interior cells only. *)
Theorem edge_tracking_border_zero (h w : nat) (a : raster) :
  rect h w a -> (0 < h)%nat -> (0 < w)%nat ->
  exists out,
    apply_edge_tracking a = Ok out /\ rect h w out /\
    forall y x, (y < h)%nat -> (x < w)%nat ->
      (y = 0 \/ y = h - 1 \/ x = 0 \/ x = w - 1)%nat ->
      get out y x = 0.
Proof.
  intros Ha Hh Hw.
  destruct (has_empty_axis_false _ _ _ Ha Hh Hw) as (Ee & _ & _).
  destruct (strong_pass_spec h w a Ha Hh Hw) as [Hrs Hs].
  destruct (weak_pass_spec h w a Ha Hh Hw (strong_pass a (np_pad_edge a)))
    as [Hrw Hwk].
  unfold apply_edge_tracking. rewrite Ee.
  eexists. split; [reflexivity|]. split.
  - by apply rect_zip_with.
  - intros y x Hy Hx Hb. unfold np_add.
    rewrite (get_zip_with h w) by done.
    rewrite Hs, Hwk.
    rewrite bool_decide_eq_false_2 by lia. reflexivity.
Qed.

Lemma edge_tracking_border_zero_witness :
  exists out,
    apply_edge_tracking [[100; 0; 0]; [0; 5; 0]; [0; 0; 0]] = Ok out /\
    rect 3 3 out /\
    forall y x, (y < 3)%nat -> (x < 3)%nat ->
      (y = 0 \/ y = 3 - 1 \/ x = 0 \/ x = 3 - 1)%nat ->
      get out y x = 0.
Proof.
  apply (edge_tracking_border_zero 3 3).
  - split; [reflexivity|repeat constructor].
  - lia.
  - lia.
Defined.

(** C3. On the 3 by 3 array whose corner sample is 100 and whose centre
    sample is 5, [apply_edge_tracking] keeps the centre sample: the sample
    compared with the thresholds is [arr_padded[y][x]], the input sample at
    [(y - 1, x - 1)], while the sample copied is [in_np_arr[y][x]].  The
    output holds a sample whose absolute value is positive and at most
    THRESH_LO. *)
Theorem edge_tracking_keeps_sample_under_low_threshold :
  apply_edge_tracking [[100; 0; 0]; [0; 5; 0]; [0; 0; 0]]
  = Ok [[0; 0; 0]; [0; 5; 0]; [0; 0; 0]]
  /\ 0 < Z.abs 5 <= THRESH_LO.
Proof. split; [vm_compute; reflexivity|unfold THRESH_LO; lia]. Qed.

(** C4. On a 3 by 3 array whose corner and centre samples are -100, the
    strong grid and the weak grid both hold -100 at the centre: the weak pass
    skips a cell only when its strong sample is positive.  The output sample
    is -200, which is neither the input sample nor zero. *)
Theorem edge_tracking_strong_and_weak_overlap :
  strong_pass [[-100; 0; 0]; [0; -100; 0]; [0; 0; 0]]
    (np_pad_edge [[-100; 0; 0]; [0; -100; 0]; [0; 0; 0]])
  = [[0; 0; 0]; [0; -100; 0]; [0; 0; 0]]
  /\ weak_pass [[-100; 0; 0]; [0; -100; 0]; [0; 0; 0]]
       (np_pad_edge [[-100; 0; 0]; [0; -100; 0]; [0; 0; 0]])
       [[0; 0; 0]; [0; -100; 0]; [0; 0; 0]]
     = [[0; 0; 0]; [0; -100; 0]; [0; 0; 0]]
  /\ apply_edge_tracking [[-100; 0; 0]; [0; -100; 0]; [0; 0; 0]]
     = Ok [[0; 0; 0]; [0; -200; 0]; [0; 0; 0]].
Proof. repeat split; vm_compute; reflexivity. Qed.

(** ** The normalization stage *)

(** What [rectify_and_clip] does to one sample. *)
Lemma rectify_and_clip_cells (h w : nat) (a : raster) :
  rect h w a ->
  rectify_and_clip a = map (map (fun v => Z.min (wrap64 (Z.abs v)) MAX_VAL)) a.
Proof.
  intros Ha. unfold rectify_and_clip.
  destruct (decide (h = 0%nat)) as [->|Hh].
  { destruct Ha as [Hl _]. destruct a; [reflexivity|discriminate]. }
  assert (Hab : rect h w (np_abs a)) by by apply rect_fmap.
  destruct (rect_shape _ _ _ Hab) as [En Ec]; [lia|]. rewrite En, Ec.
  destruct (for_each2_spec h w (fun _ _ old => Z.min old MAX_VAL)
              (fun y x a => set2 a y x (Z.min (get a y x) MAX_VAL))
              (range 0 h) (range 0 w) (NoDup_range _ _) (NoDup_range _ _))
    with (a := np_abs a) as [Hr Hget]; [|done|].
  { intros y x Hy%elem_of_range Hx%elem_of_range.
    apply (writes_cell_inplace h w (fun old => Z.min old MAX_VAL)); lia. }
  apply (raster_ext h w); [done|by apply rect_fmap|].
  intros y x Hy Hx. rewrite Hget.
  rewrite bool_decide_eq_true_2 by (rewrite !elem_of_range; lia).
  unfold np_abs. by rewrite !(get_fmap h w).
Qed.

Lemma clip_abs_idempotent (v : Z) :
  int64 v ->
  Z.min (wrap64 (Z.abs (Z.min (wrap64 (Z.abs v)) MAX_VAL))) MAX_VAL
  = Z.min (wrap64 (Z.abs v)) MAX_VAL.
Proof.
  intros Hv. unfold int64 in Hv. unfold MAX_VAL.
  destruct (decide (v = - 2 ^ 63)) as [->|Hne].
  - vm_compute. reflexivity.
  - rewrite (wrap64_small (Z.abs v)) by (unfold int64; lia).
    rewrite wrap64_small by (unfold int64; lia).
    lia.
Qed.

(** C7. [rectify_and_clip] applied twice to an array of 64-bit samples gives
    what it gives applied once. *)
Theorem rectify_and_clip_idempotent (h w : nat) (a : raster) :
  rect h w a -> all_samples int64 a ->
  rectify_and_clip (rectify_and_clip a) = rectify_and_clip a.
Proof.
  intros Ha Hs.
  rewrite (rectify_and_clip_cells h w a Ha).
  rewrite (rectify_and_clip_cells h w) by by apply rect_fmap.
  clear Ha. induction Hs as [|r a Hr Hs IH]; simpl; [reflexivity|].
  f_equal; [|exact IH].
  clear IH Hs. induction Hr as [|v r Hv Hr IH]; simpl; [reflexivity|].
  f_equal; [|exact IH]. by apply clip_abs_idempotent.
Qed.

Lemma rectify_and_clip_idempotent_witness :
  rectify_and_clip (rectify_and_clip [[-300; 7]; [0; 255]])
  = rectify_and_clip [[-300; 7]; [0; 255]].
Proof.
  apply (rectify_and_clip_idempotent 2 2).
  - split; [reflexivity|repeat constructor].
  - repeat constructor; unfold int64; lia.
Defined.

(** ** The loader *)

Section loader.
Local Open Scope nat_scope.
Variable buf : list byte.
Variable wd : nat.

Lemma read_row_spec y pos log :
  read_row buf wd y pos log
  = (map (fun x => sample_at buf (pos + x)) (seq 0 wd),
     pos + wd,
     log ++ row_warnings buf wd y pos).
Proof.
  unfold read_row, row_warnings, range. rewrite Nat.sub_0_r.
  induction wd as [|n IH].
  - simpl. rewrite app_nil_r. repeat f_equal. lia.
  - rewrite seq_S, fold_left_app, IH. simpl.
    rewrite map_app, filter_app, map_app. simpl.
    assert (Es : sample_at buf (pos + n)
                 = if pos + n <? length buf
                   then Z.of_N (Byte.to_N (nth (pos + n) buf x00)) else 0%Z)
      by reflexivity.
    rewrite Es. clear Es.
    destruct (Nat.ltb_spec (pos + n) (length buf)) as [Hlt|Hge].
    + rewrite filter_cons_False by (simpl; lia). rewrite filter_nil.
      simpl. rewrite app_nil_r. repeat f_equal. lia.
    + rewrite filter_cons_True by (simpl; lia). rewrite filter_nil.
      simpl. rewrite app_assoc. repeat f_equal. lia.
Qed.

Lemma read_raster_spec ht log :
  read_raster buf wd ht log
  = (map (fun y => map (fun x => sample_at buf (y * wd + x)) (seq 0 wd)) (seq 0 ht),
     ht * wd,
     log ++ concat (map (fun y => row_warnings buf wd y (y * wd)) (seq 0 ht))).
Proof.
  unfold read_raster, range. rewrite Nat.sub_0_r.
  induction ht as [|n IH].
  - simpl. by rewrite app_nil_r.
  - rewrite seq_S, fold_left_app, IH. simpl.
    rewrite read_row_spec.
    rewrite !map_app, concat_app. simpl.
    rewrite app_nil_r, app_assoc.
    replace (n * wd + wd) with (wd + n * wd) by lia. reflexivity.
Qed.

Lemma rect_read ht :
  rect ht wd
    (map (fun y => map (fun x => sample_at buf (y * wd + x)) (seq 0 wd)) (seq 0 ht)).
Proof.
  split.
  - by rewrite length_map, length_seq.
  - apply Forall_forall. intros r Hr.
    apply (list_elem_of_fmap (fun y => map _ (seq 0 wd))) in Hr as (y & -> & _).
    by rewrite length_map, length_seq.
Qed.

Lemma get_read ht y x :
  y < ht -> x < wd ->
  get (map (fun y => map (fun x => sample_at buf (y * wd + x)) (seq 0 wd)) (seq 0 ht))
      y x
  = sample_at buf (y * wd + x).
Proof.
  intros Hy Hx.
  apply (get_lookup _ _ _
           (map (fun x => sample_at buf (y * wd + x)) (seq 0 wd))).
  - change (map ?f ?l) with (f <$> l).
    by rewrite list_lookup_fmap, lookup_seq_lt.
  - change (map ?f ?l) with (f <$> l).
    by rewrite list_lookup_fmap, lookup_seq_lt.
Qed.

Lemma warning_recorded ht y x :
  y < ht -> x < wd -> length buf <= y * wd + x ->
  (WARNING, SubstitutingZero y x)
  ∈ concat (map (fun y => row_warnings buf wd y (y * wd)) (seq 0 ht)).
Proof.
  intros Hy Hx Hmiss.
  apply list_elem_of_In, in_concat.
  exists (row_warnings buf wd y (y * wd)). split.
  - apply (in_map (fun y => row_warnings buf wd y (y * wd))), in_seq. lia.
  - unfold row_warnings. apply list_elem_of_In.
    apply (list_elem_of_fmap_2 (fun x => (WARNING, SubstitutingZero y x))).
    apply list_elem_of_filter. split; [done|].
    apply elem_of_seq. lia.
Qed.
End loader.

(** C9. When the header of a file gives a width and a height and fewer bytes
    than width * height follow it, [convert_pgm_to_np_arr] returns an array of
    height rows and width columns: a sample that has a byte is that byte, a
    sample that has none is 0.  The log holds the warning about the size of
    the raster and one warning for each sample that was missing. *)
Theorem loader_zero_fills_short_raster
    (f : list byte) (log0 : list log_record) (wd ht max_val : nat) (buf : list byte) :
  parse_header f = (log0, Ok (wd, ht, max_val, buf)) ->
  (length buf < wd * ht)%nat ->
  exists log np_arr,
    convert_pgm_to_np_arr f = (log, Ok np_arr)
    /\ rect ht wd np_arr
    /\ (forall y x, (y < ht)%nat -> (x < wd)%nat ->
          get np_arr y x
          = if (y * wd + x <? length buf)%nat
            then Z.of_N (Byte.to_N (nth (y * wd + x) buf x00))
            else 0)
    /\ (WARNING, RasterSizeMismatch wd ht (length buf)) ∈ log
    /\ (forall y x, (y < ht)%nat -> (x < wd)%nat ->
          (length buf <= y * wd + x)%nat ->
          (WARNING, SubstitutingZero y x) ∈ log).
Proof.
  intros Hhdr Hshort.
  unfold convert_pgm_to_np_arr. rewrite Hhdr.
  rewrite read_raster_spec.
  destruct (Nat.eqb_spec (length buf) (wd * ht)) as [E|_]; [lia|].
  eexists _, _. split; [reflexivity|].
  split; [apply rect_read|].
  split; [intros y x Hy Hx; by apply get_read|].
  split.
  - rewrite !elem_of_app. left. left. right. by apply list_elem_of_singleton.
  - intros y x Hy Hx Hmiss.
    rewrite !elem_of_app. left. right. by apply warning_recorded.
Qed.

Lemma loader_zero_fills_short_raster_witness :
  exists log np_arr,
    convert_pgm_to_np_arr ex_file_4x4_10 = (log, Ok np_arr)
    /\ rect 4 4 np_arr
    /\ (forall y x, (y < 4)%nat -> (x < 4)%nat ->
          get np_arr y x
          = if (y * 4 + x <? 10)%nat
            then Z.of_N (Byte.to_N
                           (nth (y * 4 + x)
                              [x01; x02; x03; x04; x05; x06; x07; x08; x09; x0b] x00))
            else 0)
    /\ (WARNING, RasterSizeMismatch 4 4 10) ∈ log
    /\ (forall y x, (y < 4)%nat -> (x < 4)%nat ->
          (10 <= y * 4 + x)%nat ->
          (WARNING, SubstitutingZero y x) ∈ log).
Proof.
  apply (loader_zero_fills_short_raster ex_file_4x4_10
           (fst (parse_header ex_file_4x4_10)) 4 4 255
           [x01; x02; x03; x04; x05; x06; x07; x08; x09; x0b]).
  - vm_compute. reflexivity.
  - simpl. lia.
Defined.

(** ** The writer *)

Section decimal.
Local Open Scope nat_scope.

Lemma py_int_acc (u : Decimal.uint) (acc : nat) :
  fold_left (fun acc c => 10 * acc + (N.to_nat (Byte.to_N c) - 48))
    (uint_bytes u) acc
  = Nat.of_uint_acc u acc.
Proof.
  revert acc.
  induction u as [|u IH|u IH|u IH|u IH|u IH|u IH|u IH|u IH|u IH|u IH];
    intros acc; cbn [uint_bytes fold_left Nat.of_uint_acc];
    [reflexivity|..]; rewrite IH; f_equal; rewrite Nat.tail_mul_spec;
    vm_compute (N.to_nat (Byte.to_N _) - 48); lia.
Qed.

Lemma py_int_py_str (n : nat) : py_int (py_str n) = n.
Proof.
  unfold py_int, py_str. rewrite py_int_acc.
  apply DecimalNat.Unsigned.of_to.
Qed.

Lemma py_str_digits (n : nat) : Forall (fun b => is_digit b = true) (py_str n).
Proof.
  unfold py_str.
  induction (Nat.to_uint n); cbn [uint_bytes]; constructor; done.
Qed.

Lemma py_str_nonempty (n : nat) : py_str n <> [].
Proof.
  unfold py_str. intros E.
  pose proof (DecimalNat.Unsigned.of_to n) as Hn.
  destruct (Nat.to_uint n) eqn:Eu; try discriminate.
  simpl in Hn. subst n. discriminate.
Qed.
End decimal.

Section header_lines.
Local Open Scope nat_scope.

Lemma digit_is_word_char (b : byte) :
  is_digit b = true ->
  is_space b = false /\ (Byte.to_N b <? 128)%N = true
  /\ Byte.eqb b "#"%byte = false.
Proof.
  unfold is_digit, is_space. intros Hd.
  apply andb_true_iff in Hd as [H1%N.leb_le H2%N.leb_le].
  split; [|split].
  - apply orb_false_iff. split; apply andb_false_iff.
    + right. apply N.leb_gt. lia.
    + right. apply N.leb_gt. lia.
  - apply N.ltb_lt. lia.
  - destruct (Byte.eqb b "#"%byte) eqn:E; [|reflexivity].
    apply byte_dec_bl in E. subst b. vm_compute in H1. done.
Qed.

Lemma py_str_word (n : nat) : header_word (py_str n).
Proof.
  pose proof (py_str_digits n) as Hd. pose proof (py_str_nonempty n) as Hne.
  split; [done|]. split.
  - eapply Forall_impl; [exact Hd|].
    intros b Hb. by destruct (digit_is_word_char b Hb) as (? & ? & _).
  - destruct (py_str n) as [|b t]; [done|].
    apply Forall_cons in Hd as [Hb _].
    by destruct (digit_is_word_char b Hb) as (_ & _ & ?).
Qed.

Lemma magic_word : header_word ["P"%byte; "5"%byte].
Proof. split; [done|]. split; [|reflexivity]. repeat constructor. Qed.

Lemma not_space_not_newline (b : byte) :
  is_space b = false -> Byte.eqb b newline = false.
Proof.
  intros Hs. destruct (Byte.eqb b newline) eqn:E; [|reflexivity].
  apply byte_dec_bl in E. subst b. vm_compute in Hs. done.
Qed.

Lemma lines_word (t rest : list byte) :
  header_word t ->
  lines (t ++ newline :: rest) = (t ++ [newline]) :: lines rest.
Proof.
  intros (_ & Hf & _).
  induction Hf as [|b t [Hb _] Hf IH]; cbn [app lines].
  - reflexivity.
  - by rewrite (not_space_not_newline b Hb), IH.
Qed.

Lemma decode_word (t : list byte) :
  header_word t -> decode (t ++ [newline]) = Some (t ++ [newline]).
Proof.
  intros (_ & Hf & _). unfold decode.
  assert (E : forallb (fun b => (Byte.to_N b <? 128)%N) (t ++ [newline]) = true).
  { rewrite forallb_app. apply andb_true_iff. split; [|reflexivity].
    induction Hf as [|b t [_ Hb] Hf IH]; cbn [forallb]; [reflexivity|].
    by rewrite Hb, IH. }
  by rewrite E.
Qed.

Lemma is_comment_word (t rest : list byte) :
  header_word t -> is_comment (t ++ rest) = false.
Proof.
  intros (Hne & Hf & Hh).
  destruct t as [|b t]; [done|].
  apply Forall_cons in Hf as [[Hb _] _].
  cbn [app is_comment]. by rewrite Hb.
Qed.

Lemma findall_nonspace_from_word (cur t : list byte) :
  Forall (fun b => is_space b = false /\ (Byte.to_N b <? 128)%N = true) t ->
  rev cur ++ t <> [] ->
  findall_nonspace_from cur (t ++ [newline]) = [rev cur ++ t].
Proof.
  intros Hf. revert cur.
  induction Hf as [|b t [Hb _] Hf IH]; intros cur Hne; cbn [app findall_nonspace_from].
  - change (is_space newline) with true. cbn iota.
    rewrite app_nil_r in *. destruct cur; [done|reflexivity].
  - rewrite Hb. rewrite IH.
    + cbn [rev]. by rewrite <- app_assoc.
    + cbn [rev]. rewrite <- app_assoc. by destruct (rev cur).
Qed.

Lemma findall_nonspace_word (t : list byte) :
  header_word t -> findall_nonspace (t ++ [newline]) = [t].
Proof.
  intros (Hne & Hf & _). unfold findall_nonspace.
  by rewrite findall_nonspace_from_word.
Qed.

(** One round of the header loop on a line that holds one string. *)
Lemma read_header_word (t : list byte) (ls strings : list (list byte))
    (log : list log_record) :
  header_word t -> length strings < 4 ->
  read_header ((t ++ [newline]) :: ls) strings log
  = if 4 <=? length (strings ++ [t])
    then Some (strings ++ [t], ls, log)
    else read_header ls (strings ++ [t]) log.
Proof.
  intros Hw Hlen. cbn [read_header].
  rewrite (decode_word t Hw), (is_comment_word t [newline] Hw).
  rewrite (proj2 (Nat.ltb_lt _ _) Hlen).
  by rewrite (findall_nonspace_word t Hw).
Qed.

Lemma concat_lines (f : list byte) : concat (lines f) = f.
Proof.
  induction f as [|b f IH]; [reflexivity|].
  cbn [lines]. destruct (Byte.eqb b newline).
  - cbn [concat app]. by rewrite IH.
  - destruct (lines f) as [|l ls].
    + simpl in IH. subst f. reflexivity.
    + cbn [concat app] in *. by rewrite IH.
Qed.

(** The header of a file that starts with P5, a width, a height and a
    maximum grey value, one per line. *)
Lemma parse_header_written (wd ht max_val : nat) (rest : list byte) :
  snd (parse_header
         (["P"%byte; "5"%byte] ++ newline
          :: py_str wd ++ newline
          :: py_str ht ++ newline
          :: py_str max_val ++ newline :: rest))
  = Ok (wd, ht, max_val, rest).
Proof.
  unfold parse_header.
  rewrite (lines_word _ _ magic_word).
  rewrite !(lines_word _ _ (py_str_word _)).
  rewrite (read_header_word _ _ _ _ magic_word) by (simpl; lia).
  cbn [app length Nat.leb].
  rewrite (read_header_word _ _ _ _ (py_str_word wd)) by (simpl; lia).
  cbn [app length Nat.leb].
  rewrite (read_header_word _ _ _ _ (py_str_word ht)) by (simpl; lia).
  cbn [app length Nat.leb].
  rewrite (read_header_word _ _ _ _ (py_str_word max_val)) by (simpl; lia).
  cbn [app length Nat.leb].
  change (str_eqb ["P"%byte; "5"%byte] ["P"%byte; "5"%byte]) with true.
  cbn [negb].
  assert (Hd : forall n, isdigit (py_str n) = true).
  { intros n. unfold isdigit.
    pose proof (py_str_nonempty n). pose proof (py_str_digits n) as Hf.
    destruct (py_str n) as [|b t] eqn:E; [done|]. rewrite <- E in *.
    clear E. induction Hf as [|c u Hc Hf IH]; cbn [forallb]; [reflexivity|].
    rewrite Hc. destruct u; [reflexivity|]. apply IH. done. }
  rewrite !Hd. cbn [andb negb snd].
  by rewrite !py_int_py_str, concat_lines.
Qed.
End header_lines.

Section round_trip.
Local Open Scope nat_scope.

Lemma write_samples_7bit (ps : list Z) :
  Forall (fun v => (0 <= v < 128)%Z) ps ->
  write_samples ps = Ok (map byte_of_Z ps).
Proof.
  induction 1 as [|p ps Hp Hps IH]; cbn [write_samples map]; [reflexivity|].
  unfold write_chr, utf8.
  rewrite (proj2 (Z.ltb_ge p (- 2 ^ 31))) by lia.
  rewrite (proj2 (Z.ltb_ge (2 ^ 31 - 1) p)) by lia.
  rewrite (proj2 (Z.ltb_ge p 0)) by lia.
  rewrite (proj2 (Z.ltb_ge 1114111 p)) by lia.
  rewrite (proj2 (Z.leb_gt 55296 p)) by lia.
  rewrite (proj2 (Z.ltb_lt p 128)) by lia.
  cbn [orb andb]. by rewrite IH.
Qed.

Lemma byte_of_Z_value (v : Z) :
  (0 <= v < 256)%Z -> Z.of_N (Byte.to_N (byte_of_Z v)) = v.
Proof.
  intros Hv. unfold byte_of_Z.
  destruct (Byte.of_N (Z.to_N v)) as [b|] eqn:E.
  - apply Byte.to_of_N in E. rewrite E. lia.
  - apply Byte.of_N_None_iff in E. lia.
Qed.

Lemma rect_own_shape (h w : nat) (a : raster) :
  rect h w a -> rect (nrows a) (ncols a) a.
Proof.
  intros Ha. destruct (decide (h = 0)) as [->|Hh].
  - destruct Ha as [Hl _]. destruct a; [|discriminate]. by split.
  - destruct (rect_shape _ _ _ Ha) as [-> ->]; [lia|done].
Qed.

Lemma length_concat_rect (h w : nat) (a : raster) :
  rect h w a -> length (concat a) = h * w.
Proof.
  intros [Hl Hf]. subst h.
  induction Hf as [|r a Hr Hf IH]; [reflexivity|].
  cbn [concat length]. rewrite length_app, IH, Hr. lia.
Qed.

Lemma nth_concat_rect (h w : nat) (a : raster) (y x : nat) :
  rect h w a -> y < h -> x < w ->
  nth (y * w + x) (concat a) 0%Z = get a y x.
Proof.
  intros [Hl Hf]. subst h. revert y.
  induction Hf as [|r a Hr Hf IH]; intros y Hy Hx; [simpl in Hy; lia|].
  cbn [concat]. destruct y as [|y].
  - rewrite app_nth1 by (simpl; lia). reflexivity.
  - rewrite app_nth2 by (rewrite Hr; lia).
    replace (S y * w + x - length r) with (y * w + x) by (rewrite Hr; lia).
    rewrite IH by (simpl in Hy; lia || done). reflexivity.
Qed.

(** Writing an array whose samples are all below 128 and reading the file
    back gives the array. *)
Lemma writer_then_loader_7bit (h w : nat) (a : raster) :
  rect h w a -> all_samples (fun v => (0 <= v < 128)%Z) a ->
  exists f,
    convert_np_arr_to_pgm a = Ok f /\ snd (convert_pgm_to_np_arr f) = Ok a.
Proof.
  intros Ha Hs. apply rect_own_shape in Ha.
  assert (Hc : Forall (fun v => (0 <= v < 128)%Z) (concat a))
    by by apply Forall_concat.
  unfold convert_np_arr_to_pgm. rewrite (write_samples_7bit _ Hc).
  eexists. split; [reflexivity|].
  unfold convert_pgm_to_np_arr.
  pose proof (parse_header_written (ncols a) (nrows a) (Z.to_nat MAX_VAL)
                (map byte_of_Z (concat a) ++ [newline])) as Hp.
  match goal with
  | |- context [parse_header ?f] =>
      match type of Hp with
      | context [parse_header ?g] =>
          replace f with g by (rewrite <- !app_assoc; reflexivity)
      end
  end.
  destruct (parse_header _) as [log r]. cbn [snd] in Hp. subst r.
  rewrite read_raster_spec. cbn [snd]. f_equal.
  apply (raster_ext (nrows a) (ncols a)); [apply rect_read|done|].
  intros y x Hy Hx. rewrite get_read by done.
  pose proof (length_concat_rect _ _ _ Ha) as Hlen.
  assert (Hpos : y * ncols a + x < length (concat a)) by nia.
  unfold sample_at.
  rewrite (proj2 (Nat.ltb_lt _ _)) by (rewrite length_app, length_map; lia).
  rewrite app_nth1 by (rewrite length_map; lia).
  change x00 with (byte_of_Z 0%Z). rewrite map_nth.
  rewrite (nth_concat_rect _ _ _ _ _ Ha Hy Hx).
  apply byte_of_Z_value.
  rewrite <- (nth_concat_rect _ _ _ _ _ Ha Hy Hx).
  rewrite Forall_forall in Hc.
  assert (Hin : nth (y * ncols a + x) (concat a) 0%Z ∈ concat a)
    by (apply list_elem_of_In, nth_In; lia).
  specialize (Hc _ Hin). lia.
Qed.
End round_trip.

(** C5. Writing the 1 by 1 array of the sample 200 gives a file whose raster
    is the two bytes 0xc3 0x88, the UTF-8 encoding of [chr(200)], because the
    file is opened as a text file; the loader reads the file back as the
    1 by 1 array of the sample 195. *)
Theorem writer_then_loader_changes_sample_200 :
  convert_np_arr_to_pgm [[200]]
  = Ok ["P"%byte; "5"%byte; newline; "1"%byte; newline; "1"%byte; newline;
        "2"%byte; "5"%byte; "5"%byte; newline; xc3; x88; newline]
  /\ snd (convert_pgm_to_np_arr
            ["P"%byte; "5"%byte; newline; "1"%byte; newline; "1"%byte; newline;
             "2"%byte; "5"%byte; "5"%byte; newline; xc3; x88; newline])
     = Ok [[195]].
Proof. split; vm_compute; reflexivity. Qed.

(** ** The stages in sequence *)

(** The 5 by 5 array of the sample 100 with the sample 200 at [(2, 2)]. *)
Example edge_detect_5x5 :
  edge_detect [[100; 100; 100; 100; 100];
               [100; 100; 100; 100; 100];
               [100; 100; 200; 100; 100];
               [100; 100; 100; 100; 100];
               [100; 100; 100; 100; 100]]
  = Ok [[0; 0; 0; 0; 0];
        [0; 0; 0; 0; 0];
        [0; 0; 255; 0; 0];
        [0; 0; 0; 0; 0];
        [0; 0; 0; 0; 0]].
Proof. vm_compute. reflexivity. Qed.

(** * Further properties *)

(** ** Samples of an array, cell by cell *)

Section samples.
Local Open Scope nat_scope.

Lemma all_samples_get (P : Z -> Prop) (h w : nat) (a : raster) :
  rect h w a ->
  (all_samples P a <-> forall y x, y < h -> x < w -> P (get a y x)).
Proof.
  intros Ha. split.
  - intros Hs y x Hy Hx.
    destruct (rect_cell _ _ _ _ _ Ha Hy Hx) as (r & Er & _ & Ev).
    eapply Forall_lookup_1; [|exact Ev].
    eapply Forall_lookup_1; [exact Hs|exact Er].
  - intros Hg. apply Forall_lookup_2. intros y r Er.
    apply Forall_lookup_2. intros x v Ev.
    pose proof (lookup_lt_Some _ _ _ Er) as Hy.
    pose proof (lookup_lt_Some _ _ _ Ev) as Hx.
    assert (Hy' : y < h) by (destruct Ha as [<- _]; exact Hy).
    destruct (rect_lookup _ _ _ _ Ha Hy') as (r' & Er' & Hlen).
    assert (r' = r) as -> by congruence.
    rewrite <- (get_lookup _ _ _ _ _ Er Ev). apply Hg; lia.
Qed.
End samples.

(** ** The convolution stage, further *)

Section conv_8bit.
Local Open Scope nat_scope.
Variables (h w : nat) (a : raster).
Hypothesis Ha : rect h w a.
Hypothesis Hh : 0 < h.
Hypothesis Hw : 0 < w.

Lemma spec_padded_view_sample (P : Z -> Prop) (i j : Z) :
  all_samples P a -> P (spec_padded_view a i j).
Proof.
  intros Hs. unfold spec_padded_view.
  destruct (rect_shape _ _ _ Ha Hh) as [-> ->].
  apply (all_samples_get P h w a Ha); [done| |]; unfold clamp; lia.
Qed.

Lemma laplacian_response_bounded (y x : nat) :
  all_samples (fun v => (0 <= v <= 255)%Z) a ->
  (- 2040 <= spec_product_sum LAPLACIAN a y x <= 2040)%Z.
Proof.
  intros Hs. unfold spec_product_sum, LAPLACIAN.
  cbn [seq flat_map map app fold_right get nth].
  repeat match goal with
         | |- context [spec_padded_view a ?i ?j] =>
             let v := fresh "v" in
             let Hv := fresh "Hv" in
             pose proof (spec_padded_view_sample _ i j Hs) as Hv;
             cbv beta in Hv;
             set (v := spec_padded_view a i j) in *; clearbody v
         end.
  lia.
Qed.

Lemma conv_laplacian_8bit_cells :
  all_samples (fun v => (0 <= v <= 255)%Z) a ->
  exists out,
    apply_conv_kernel a LAPLACIAN = Ok out /\ rect h w out /\
    forall y x, y < h -> x < w ->
      get out y x
      = (if (y <? h - 2) && (x <? w - 2)
         then spec_product_sum LAPLACIAN a y x else 0%Z)
      /\ (- 2040 <= get out y x <= 2040)%Z.
Proof.
  intros Hs.
  destruct (conv_computed_cells h w a LAPLACIAN Ha Hh Hw) as (out & Eo & Hr & Hget).
  { split; [reflexivity|repeat constructor]. }
  exists out. split; [done|]. split; [done|].
  intros y x Hy Hx. rewrite (Hget y x Hy Hx).
  pose proof (laplacian_response_bounded y x Hs) as Hb.
  destruct ((y <? h - 2) && (x <? w - 2)); [|lia].
  rewrite wrap64_small by (unfold int64; lia). lia.
Qed.
End conv_8bit.

(** X1. For an input of [h] by [w] samples and a 3 by 3 kernel,
    [apply_conv_kernel] returns an array of the shape of the input.  Its cell
    [(y, x)] with [y < h - 2] and [x < w - 2] holds the product sum of the
    kernel with the 3 by 3 neighbourhood of [(y, x)] in the edge-padded input,
    reduced to 64 bits; every other cell is 0. *)
Theorem conv_cells_any_kernel (h w : nat) (a k : raster) :
  rect h w a -> (0 < h)%nat -> (0 < w)%nat -> rect 3 3 k ->
  exists out,
    apply_conv_kernel a k = Ok out /\ rect h w out /\
    forall y x, (y < h)%nat -> (x < w)%nat ->
      get out y x
      = if ((y <? h - 2) && (x <? w - 2))%nat
        then wrap64 (spec_product_sum k a y x)
        else 0.
Proof. exact (conv_computed_cells h w a k). Qed.

Lemma conv_cells_any_kernel_witness :
  exists out,
    apply_conv_kernel [[1; 2; 3; 4]; [5; 6; 7; 8]; [9; 10; 11; 12]]
      [[1; 0; -1]; [2; 0; -2]; [1; 0; -1]] = Ok out /\ rect 3 4 out /\
    forall y x, (y < 3)%nat -> (x < 4)%nat ->
      get out y x
      = if ((y <? 3 - 2) && (x <? 4 - 2))%nat
        then wrap64 (spec_product_sum [[1; 0; -1]; [2; 0; -2]; [1; 0; -1]]
                       [[1; 2; 3; 4]; [5; 6; 7; 8]; [9; 10; 11; 12]] y x)
        else 0.
Proof.
  apply (conv_cells_any_kernel 3 4).
  - split; [reflexivity|repeat constructor].
  - lia.
  - lia.
  - split; [reflexivity|repeat constructor].
Defined.

(** X2. An input with fewer than three rows or fewer than three columns
    convolves to the array of zeros, whatever its samples and the 3 by 3
    kernel: the loops over [range(shape - 2)] are empty. *)
Theorem conv_small_image_all_zero (h w : nat) (a k : raster) :
  rect h w a -> (0 < h)%nat -> (0 < w)%nat ->
  nrows k = 3%nat -> ncols k = 3%nat ->
  (h <= 2 \/ w <= 2)%nat ->
  apply_conv_kernel a k = Ok (np_zeros h w).
Proof.
  intros Ha Hh Hw Hk1 Hk2 Hsmall.
  destruct (conv_cells h w a k Ha Hh Hw Hk1 Hk2) as (out & -> & Hr & Hget).
  f_equal. apply (raster_ext h w); [done|apply rect_np_zeros|].
  intros y x Hy Hx. rewrite Hget, get_np_zeros.
  by rewrite bool_decide_eq_false_2 by lia.
Qed.

Lemma conv_small_image_all_zero_witness :
  apply_conv_kernel [[10; 200; 30; 40]; [50; 60; 70; 80]] LAPLACIAN
  = Ok (np_zeros 2 4).
Proof.
  apply (conv_small_image_all_zero 2 4).
  - split; [reflexivity|repeat constructor].
  - lia.
  - lia.
  - reflexivity.
  - reflexivity.
  - lia.
Defined.

(** X3. For an input of samples in [0, 255] and the Laplacian kernel no sum
    overflows: a computed cell holds the product sum itself, and every cell
    of the output lies in [-2040, 2040]. *)
Theorem conv_laplacian_8bit_exact (h w : nat) (a : raster) :
  rect h w a -> (0 < h)%nat -> (0 < w)%nat ->
  all_samples (fun v => 0 <= v <= 255) a ->
  exists out,
    apply_conv_kernel a LAPLACIAN = Ok out /\ rect h w out /\
    forall y x, (y < h)%nat -> (x < w)%nat ->
      get out y x
      = (if ((y <? h - 2) && (x <? w - 2))%nat
         then spec_product_sum LAPLACIAN a y x else 0)
      /\ - 2040 <= get out y x <= 2040.
Proof. exact (conv_laplacian_8bit_cells h w a). Qed.

Lemma conv_laplacian_8bit_exact_witness :
  exists out,
    apply_conv_kernel [[0; 255; 0]; [255; 0; 255]; [0; 255; 0]] LAPLACIAN = Ok out
    /\ rect 3 3 out /\
    forall y x, (y < 3)%nat -> (x < 3)%nat ->
      get out y x
      = (if ((y <? 3 - 2) && (x <? 3 - 2))%nat
         then spec_product_sum LAPLACIAN [[0; 255; 0]; [255; 0; 255]; [0; 255; 0]] y x
         else 0)
      /\ - 2040 <= get out y x <= 2040.
Proof.
  apply (conv_laplacian_8bit_exact 3 3).
  - split; [reflexivity|repeat constructor].
  - lia.
  - lia.
  - repeat constructor; lia.
Defined.

(** ** The thinning stage, further *)

Lemma get_uniform (h w : nat) (v : Z) (y x : nat) :
  (y < h)%nat -> (x < w)%nat -> get (replicate h (replicate w v)) y x = v.
Proof.
  intros Hy Hx. apply (get_lookup _ _ _ (replicate w v)); by apply lookup_replicate_2.
Qed.

Lemma rect_uniform (h w : nat) (v : Z) : rect h w (replicate h (replicate w v)).
Proof. split; [apply length_replicate|apply Forall_replicate, length_replicate]. Qed.

(** A property of samples that 0 has passes from the input of
    [apply_edge_thinning] to its output. *)
Lemma thinning_samples (P : Z -> Prop) (h w : nat) (a : raster) :
  rect h w a -> (0 < h)%nat -> (0 < w)%nat -> P 0 -> all_samples P a ->
  exists out, apply_edge_thinning a = Ok out /\ rect h w out /\ all_samples P out.
Proof.
  intros Ha Hh Hw H0 Hs.
  destruct (edge_thinning_cells h w a Ha Hh Hw) as (out & Eo & Hr & Hget).
  exists out. split; [done|]. split; [done|].
  apply (all_samples_get P h w out Hr). intros y x Hy Hx. rewrite Hget.
  case_bool_decide; [|done].
  destruct (spec_thinning_keeps a (y - 1) (x - 1)); [|done].
  by apply (proj1 (all_samples_get P h w a Ha) Hs).
Qed.

(** X4. The output of [apply_edge_thinning] has the shape of the input.  An
    interior cell [(y, x)] holds the input sample at [(y, x)] when the input
    sample at [(y - 1, x - 1)] is at least the maximum or at most the minimum
    of its row run or of its column run of three, and 0 otherwise; a cell of
    the border is 0. *)
Theorem thinning_cells (h w : nat) (a : raster) :
  rect h w a -> (0 < h)%nat -> (0 < w)%nat ->
  exists out,
    apply_edge_thinning a = Ok out /\ rect h w out /\
    forall y x,
      get out y x
      = if bool_decide ((1 <= y < h - 1)%nat /\ (1 <= x < w - 1)%nat)
        then (if spec_thinning_keeps a (y - 1) (x - 1) then get a y x else 0)
        else 0.
Proof. exact (edge_thinning_cells h w a). Qed.

Lemma thinning_cells_witness :
  exists out,
    apply_edge_thinning [[5; 0; 0]; [0; 1; 2]; [0; 2; 0]] = Ok out /\ rect 3 3 out /\
    forall y x,
      get out y x
      = if bool_decide ((1 <= y < 3 - 1)%nat /\ (1 <= x < 3 - 1)%nat)
        then (if spec_thinning_keeps [[5; 0; 0]; [0; 1; 2]; [0; 2; 0]] (y - 1) (x - 1)
              then get [[5; 0; 0]; [0; 1; 2]; [0; 2; 0]] y x else 0)
        else 0.
Proof.
  apply (thinning_cells 3 3).
  - split; [reflexivity|repeat constructor].
  - lia.
  - lia.
Defined.

(** X5. Every cell of the output of [apply_edge_thinning] is 0 or the input
    sample of that cell, so a sample that is 0 in the input is 0 in the
    output; the cells of the first and last row and column are 0. *)
Theorem thinning_keeps_or_zeroes (h w : nat) (a : raster) :
  rect h w a -> (0 < h)%nat -> (0 < w)%nat ->
  exists out,
    apply_edge_thinning a = Ok out /\ rect h w out /\
    forall y x, (y < h)%nat -> (x < w)%nat ->
      (get out y x = 0 \/ get out y x = get a y x)
      /\ (get a y x = 0 -> get out y x = 0)
      /\ ((y = 0 \/ y = h - 1 \/ x = 0 \/ x = w - 1)%nat -> get out y x = 0).
Proof.
  intros Ha Hh Hw.
  destruct (edge_thinning_cells h w a Ha Hh Hw) as (out & Eo & Hr & Hget).
  exists out. split; [done|]. split; [done|].
  intros y x Hy Hx. rewrite Hget.
  case_bool_decide as Hin.
  - destruct (spec_thinning_keeps a (y - 1) (x - 1)).
    + split; [by right|]. split; [done|]. lia.
    + split; [by left|]. split; [done|]. lia.
  - split; [by left|]. done.
Qed.

Lemma thinning_keeps_or_zeroes_witness :
  exists out,
    apply_edge_thinning [[5; 0; 0; 1]; [0; 1; 2; 0]; [0; 2; 0; 7]; [3; 0; 0; 0]]
    = Ok out /\ rect 4 4 out /\
    forall y x, (y < 4)%nat -> (x < 4)%nat ->
      (get out y x = 0
       \/ get out y x
          = get [[5; 0; 0; 1]; [0; 1; 2; 0]; [0; 2; 0; 7]; [3; 0; 0; 0]] y x)
      /\ (get [[5; 0; 0; 1]; [0; 1; 2; 0]; [0; 2; 0; 7]; [3; 0; 0; 0]] y x = 0
          -> get out y x = 0)
      /\ ((y = 0 \/ y = 4 - 1 \/ x = 0 \/ x = 4 - 1)%nat -> get out y x = 0).
Proof.
  apply (thinning_keeps_or_zeroes 4 4).
  - split; [reflexivity|repeat constructor].
  - lia.
  - lia.
Defined.

(** X6. On an array whose samples all equal [v] the comparisons of
    [apply_edge_thinning] are ties, and ties keep the sample: every interior
    cell of the output is [v] and the border is 0. *)
Theorem thinning_keeps_plateau (h w : nat) (v : Z) :
  (0 < h)%nat -> (0 < w)%nat ->
  exists out,
    apply_edge_thinning (replicate h (replicate w v)) = Ok out /\ rect h w out /\
    forall y x,
      get out y x
      = if bool_decide ((1 <= y < h - 1)%nat /\ (1 <= x < w - 1)%nat) then v else 0.
Proof.
  intros Hh Hw.
  destruct (edge_thinning_cells h w _ (rect_uniform h w v) Hh Hw)
    as (out & Eo & Hr & Hget).
  exists out. split; [done|]. split; [done|].
  intros y x. rewrite Hget.
  case_bool_decide as Hin; [|done].
  unfold spec_thinning_keeps.
  rewrite !get_uniform by lia.
  cbn [py_max py_min fold_right hd].
  rewrite !Z.max_id, !Z.min_id.
  by rewrite (proj2 (Z.geb_le v v)) by lia.
Qed.

Lemma thinning_keeps_plateau_witness :
  exists out,
    apply_edge_thinning (replicate 4 (replicate 5 (-7))) = Ok out /\ rect 4 5 out /\
    forall y x,
      get out y x
      = if bool_decide ((1 <= y < 4 - 1)%nat /\ (1 <= x < 5 - 1)%nat) then -7 else 0.
Proof. apply (thinning_keeps_plateau 4 5 (-7)); lia. Defined.

(** ** The hysteresis stage, further *)

Lemma all_samples_slice2 (P : Z -> Prop) (y0 y1 x0 x1 : nat) (a : raster) :
  all_samples P a -> all_samples P (slice2 y0 y1 x0 x1 a).
Proof.
  intros Hs. unfold all_samples, slice2, slice.
  change (map ?f ?l) with (f <$> l). apply Forall_fmap.
  apply Forall_take, Forall_drop.
  eapply Forall_impl; [exact Hs|]. intros r Hr. simpl.
  by apply Forall_take, Forall_drop.
Qed.

Lemma np_any_zero (a : raster) : all_samples (fun v => v = 0) a -> np_any a = false.
Proof.
  intros Hs. unfold np_any.
  induction Hs as [|r a Hr Hs IH]; [reflexivity|].
  cbn [concat]. rewrite existsb_app, IH, orb_false_r.
  clear IH Hs. induction Hr as [|v r -> Hr IH]; [reflexivity|].
  cbn [existsb]. by rewrite IH.
Qed.

Lemma all_samples_np_zeros (P : Z -> Prop) (h w : nat) :
  P 0 -> all_samples P (np_zeros h w).
Proof. intros H0. apply Forall_replicate, Forall_replicate, H0. Qed.

Section tracking_cells.
Local Open Scope nat_scope.
Variables (h w : nat) (a : raster).
Hypothesis Ha : rect h w a.
Hypothesis Hh : 0 < h.
Hypothesis Hw : 0 < w.

(** The cells of the weak grid. *)
Lemma weak_pass_cells (s : raster) (y x : nat) :
  get (weak_pass a (np_pad_edge a) s) y x
  = if bool_decide ((1 <= y < h - 1) /\ (1 <= x < w - 1))
    then (if (negb (get s y x >? 0)
              && ((get a (y - 1) (x - 1) >? THRESH_LO)
                  || (get a (y - 1) (x - 1) <? - THRESH_LO))
              && np_any (slice2 (y - 1) (y + 2) (x - 1) (x + 2) s))%Z
          then get a y x else 0%Z)
    else 0%Z.
Proof.
  destruct (weak_pass_spec h w a Ha Hh Hw s) as [_ Hs]. rewrite Hs.
  case_bool_decide as Hin; [|reflexivity].
  rewrite (get_np_pad_edge_nat h w) by (done || lia).
  replace (Nat.min (y - 1) (h - 1)) with (y - 1) by lia.
  replace (Nat.min (x - 1) (w - 1)) with (x - 1) by lia.
  reflexivity.
Qed.

(** The output of [apply_edge_tracking] is the cell by cell sum of the two
    grids. *)
Lemma edge_tracking_sum :
  exists out,
    apply_edge_tracking a = Ok out /\ rect h w out /\
    forall y x, y < h -> x < w ->
      get out y x
      = wrap64 (get (strong_pass a (np_pad_edge a)) y x
                + get (weak_pass a (np_pad_edge a)
                         (strong_pass a (np_pad_edge a))) y x).
Proof.
  destruct (has_empty_axis_false _ _ _ Ha Hh Hw) as (Ee & _ & _).
  destruct (strong_pass_spec h w a Ha Hh Hw) as [Hrs _].
  destruct (weak_pass_spec h w a Ha Hh Hw (strong_pass a (np_pad_edge a)))
    as [Hrw _].
  unfold apply_edge_tracking. rewrite Ee.
  eexists. split; [reflexivity|]. split; [by apply rect_zip_with|].
  intros y x Hy Hx. unfold np_add. by rewrite (get_zip_with h w).
Qed.

(** When no sample is beyond THRESH_HI the strong grid is the array of
    zeros. *)
Lemma strong_pass_zero :
  all_samples (fun v => (- THRESH_HI <= v <= THRESH_HI)%Z) a ->
  strong_pass a (np_pad_edge a) = np_zeros h w.
Proof.
  intros Hs.
  destruct (strong_pass_spec h w a Ha Hh Hw) as [Hrs _].
  apply (raster_ext h w); [done|apply rect_np_zeros|].
  intros y x Hy Hx. rewrite (strong_pass_cells h w a Ha Hh Hw), get_np_zeros.
  case_bool_decide as Hin; [|reflexivity].
  assert (Hv : (- THRESH_HI <= get a (y - 1) (x - 1) <= THRESH_HI)%Z)
    by (apply (proj1 (all_samples_get _ h w a Ha) Hs); lia).
  destruct (Z.gtb_spec (get a (y - 1) (x - 1)) THRESH_HI); [lia|].
  destruct (Z.ltb_spec (get a (y - 1) (x - 1)) (- THRESH_HI)); [lia|].
  reflexivity.
Qed.
End tracking_cells.

(** A bound on the samples of the input of [apply_edge_tracking] doubles at
    most; the border of the output is 0. *)
Lemma tracking_samples_bounded (B : Z) (h w : nat) (a : raster) :
  rect h w a -> (0 < h)%nat -> (0 < w)%nat ->
  0 <= B -> 2 * B < 2 ^ 63 ->
  all_samples (fun v => - B <= v <= B) a ->
  exists out,
    apply_edge_tracking a = Ok out /\ rect h w out
    /\ all_samples (fun v => - (2 * B) <= v <= 2 * B) out
    /\ forall y x, (y < h)%nat -> (x < w)%nat ->
         (y = 0 \/ y = h - 1 \/ x = 0 \/ x = w - 1)%nat -> get out y x = 0.
Proof.
  intros Ha Hh Hw HB HB2 Hs.
  destruct (edge_tracking_sum h w a Ha Hh Hw) as (out & Eo & Hr & Hget).
  exists out. split; [done|]. split; [done|].
  assert (Hcell : forall y x, (y < h)%nat -> (x < w)%nat ->
            - (2 * B) <= get out y x <= 2 * B
            /\ ((y = 0 \/ y = h - 1 \/ x = 0 \/ x = w - 1)%nat -> get out y x = 0)).
  { intros y x Hy Hx. rewrite (Hget y x Hy Hx).
    rewrite (strong_pass_cells h w a Ha Hh Hw), (weak_pass_cells h w a Ha Hh Hw).
    pose proof (proj1 (all_samples_get _ h w a Ha) Hs y x Hy Hx) as Hv.
    cbv beta in Hv.
    case_bool_decide as Hin.
    - split; [|lia].
      repeat match goal with
             | |- context [if ?c then _ else _] => destruct c
             end;
        rewrite wrap64_small by (unfold int64; lia); lia.
    - split; [vm_compute wrap64; lia|reflexivity]. }
  split.
  - apply (all_samples_get _ h w out Hr). intros y x Hy Hx.
    by apply Hcell.
  - intros y x Hy Hx. by apply Hcell.
Qed.

(** X7. The output of [apply_edge_tracking] has the shape of the input and
    its border is 0.  An interior cell [(y, x)] is the 64-bit sum of its
    strong and its weak sample.  The strong sample is the input sample at
    [(y, x)] when the input sample at [(y - 1, x - 1)] is beyond THRESH_HI.
    The weak sample is the input sample at [(y, x)] when the strong sample is
    not positive, the input sample at [(y - 1, x - 1)] is beyond THRESH_LO and
    the strong grid is not zero somewhere in the 3 by 3 block around
    [(y, x)]. *)
Theorem tracking_cells (h w : nat) (a : raster) :
  rect h w a -> (0 < h)%nat -> (0 < w)%nat ->
  exists out,
    apply_edge_tracking a = Ok out /\ rect h w out /\
    forall y x, (y < h)%nat -> (x < w)%nat ->
      let tested := get a (y - 1) (x - 1) in
      let strong :=
        if (tested >? THRESH_HI) || (tested <? - THRESH_HI) then get a y x else 0 in
      let weak :=
        if negb (strong >? 0)
           && ((tested >? THRESH_LO) || (tested <? - THRESH_LO))
           && np_any (slice2 (y - 1) (y + 2) (x - 1) (x + 2)
                        (strong_pass a (np_pad_edge a)))
        then get a y x else 0 in
      get out y x
      = if bool_decide ((1 <= y < h - 1)%nat /\ (1 <= x < w - 1)%nat)
        then wrap64 (strong + weak)
        else 0.
Proof.
  intros Ha Hh Hw.
  destruct (edge_tracking_sum h w a Ha Hh Hw) as (out & Eo & Hr & Hget).
  exists out. split; [done|]. split; [done|].
  intros y x Hy Hx. cbv zeta. rewrite (Hget y x Hy Hx).
  rewrite (weak_pass_cells h w a Ha Hh Hw).
  rewrite !(strong_pass_cells h w a Ha Hh Hw y x).
  by case_bool_decide.
Qed.

Lemma tracking_cells_witness :
  exists out,
    apply_edge_tracking [[-100; 0; 0]; [0; -100; 0]; [0; 0; 0]] = Ok out
    /\ rect 3 3 out /\
    forall y x, (y < 3)%nat -> (x < 3)%nat ->
      let tested := get [[-100; 0; 0]; [0; -100; 0]; [0; 0; 0]] (y - 1) (x - 1) in
      let strong :=
        if (tested >? THRESH_HI) || (tested <? - THRESH_HI)
        then get [[-100; 0; 0]; [0; -100; 0]; [0; 0; 0]] y x else 0 in
      let weak :=
        if negb (strong >? 0)
           && ((tested >? THRESH_LO) || (tested <? - THRESH_LO))
           && np_any (slice2 (y - 1) (y + 2) (x - 1) (x + 2)
                        (strong_pass [[-100; 0; 0]; [0; -100; 0]; [0; 0; 0]]
                           (np_pad_edge [[-100; 0; 0]; [0; -100; 0]; [0; 0; 0]])))
        then get [[-100; 0; 0]; [0; -100; 0]; [0; 0; 0]] y x else 0 in
      get out y x
      = if bool_decide ((1 <= y < 3 - 1)%nat /\ (1 <= x < 3 - 1)%nat)
        then wrap64 (strong + weak)
        else 0.
Proof.
  apply (tracking_cells 3 3).
  - split; [reflexivity|repeat constructor].
  - lia.
  - lia.
Defined.

(** Without a sample beyond THRESH_HI nothing is kept. *)
Lemma edge_tracking_no_strong (h w : nat) (a : raster) :
  rect h w a -> (0 < h)%nat -> (0 < w)%nat ->
  all_samples (fun v => - THRESH_HI <= v <= THRESH_HI) a ->
  apply_edge_tracking a = Ok (np_zeros h w).
Proof.
  intros Ha Hh Hw Hs.
  destruct (edge_tracking_sum h w a Ha Hh Hw) as (out & -> & Hr & Hget).
  f_equal. apply (raster_ext h w); [done|apply rect_np_zeros|].
  intros y x Hy Hx. rewrite (Hget y x Hy Hx).
  rewrite (weak_pass_cells h w a Ha Hh Hw).
  rewrite (strong_pass_zero h w a Ha Hh Hw Hs), !get_np_zeros.
  rewrite (np_any_zero (slice2 _ _ _ _ _))
    by (apply all_samples_slice2, all_samples_np_zeros; reflexivity).
  rewrite andb_false_r. by case_bool_decide.
Qed.

(** X8. When no sample of the input is beyond THRESH_HI, the output of
    [apply_edge_tracking] is the array of zeros: a sample beyond THRESH_LO is
    kept only next to a strong sample. *)
Theorem tracking_without_strong_sample (h w : nat) (a : raster) :
  rect h w a -> (0 < h)%nat -> (0 < w)%nat ->
  all_samples (fun v => - THRESH_HI <= v <= THRESH_HI) a ->
  apply_edge_tracking a = Ok (np_zeros h w).
Proof. exact (edge_tracking_no_strong h w a). Qed.

Lemma tracking_without_strong_sample_witness :
  apply_edge_tracking [[80; -80; 50]; [60; 70; -41]; [0; 45; 79]; [1; 2; 3]]
  = Ok (np_zeros 4 3).
Proof.
  apply (tracking_without_strong_sample 4 3).
  - split; [reflexivity|repeat constructor].
  - lia.
  - lia.
  - repeat constructor; unfold THRESH_HI; lia.
Defined.

(** X9. On an input without negative samples the strong and the weak grid
    of [apply_edge_tracking] are never both set in one cell, and every cell
    of the output is 0 or the input sample of that cell. *)
Theorem tracking_non_negative_keeps_or_zeroes (h w : nat) (a : raster) :
  rect h w a -> (0 < h)%nat -> (0 < w)%nat ->
  all_samples (fun v => 0 <= v < 2 ^ 63) a ->
  exists out,
    apply_edge_tracking a = Ok out /\ rect h w out /\
    forall y x, (y < h)%nat -> (x < w)%nat ->
      (get (strong_pass a (np_pad_edge a)) y x = 0
       \/ get (weak_pass a (np_pad_edge a) (strong_pass a (np_pad_edge a))) y x = 0)
      /\ (get out y x = 0 \/ get out y x = get a y x).
Proof.
  intros Ha Hh Hw Hs.
  destruct (edge_tracking_sum h w a Ha Hh Hw) as (out & Eo & Hr & Hget).
  exists out. split; [done|]. split; [done|].
  intros y x Hy Hx. rewrite (Hget y x Hy Hx).
  rewrite (weak_pass_cells h w a Ha Hh Hw).
  rewrite !(strong_pass_cells h w a Ha Hh Hw y x).
  pose proof (proj1 (all_samples_get _ h w a Ha) Hs y x Hy Hx) as Hv.
  cbv beta in Hv.
  case_bool_decide as Hin; [|split; [by left|by left]].
  destruct ((get a (y - 1) (x - 1) >? THRESH_HI)
            || (get a (y - 1) (x - 1) <? - THRESH_HI)).
  - destruct (Z.gtb_spec (get a y x) 0) as [Hpos|Hzero]; cbn [negb andb].
    + split; [by right|]. right.
      rewrite Z.add_0_r. apply wrap64_small. unfold int64. lia.
    + assert (get a y x = 0) as -> by lia.
      split; [by left|]. left.
      by destruct (_ && _).
  - split; [by left|].
    destruct (_ && _); [right|left]; rewrite ?Z.add_0_l;
      [apply wrap64_small; unfold int64; lia|reflexivity].
Qed.

Lemma tracking_non_negative_keeps_or_zeroes_witness :
  exists out,
    apply_edge_tracking [[100; 0; 0]; [0; 5; 0]; [0; 0; 0]] = Ok out
    /\ rect 3 3 out /\
    forall y x, (y < 3)%nat -> (x < 3)%nat ->
      (get (strong_pass [[100; 0; 0]; [0; 5; 0]; [0; 0; 0]]
              (np_pad_edge [[100; 0; 0]; [0; 5; 0]; [0; 0; 0]])) y x = 0
       \/ get (weak_pass [[100; 0; 0]; [0; 5; 0]; [0; 0; 0]]
                 (np_pad_edge [[100; 0; 0]; [0; 5; 0]; [0; 0; 0]])
                 (strong_pass [[100; 0; 0]; [0; 5; 0]; [0; 0; 0]]
                    (np_pad_edge [[100; 0; 0]; [0; 5; 0]; [0; 0; 0]]))) y x = 0)
      /\ (get out y x = 0
          \/ get out y x = get [[100; 0; 0]; [0; 5; 0]; [0; 0; 0]] y x).
Proof.
  apply (tracking_non_negative_keeps_or_zeroes 3 3).
  - split; [reflexivity|repeat constructor].
  - lia.
  - lia.
  - repeat constructor; lia.
Defined.

(** ** The normalization stage, further *)

Lemma rectify_and_clip_get (h w : nat) (a : raster) :
  rect h w a -> all_samples (fun v => - 2 ^ 63 < v < 2 ^ 63) a ->
  rect h w (rectify_and_clip a) /\
  forall y x, (y < h)%nat -> (x < w)%nat ->
    get (rectify_and_clip a) y x = Z.min (Z.abs (get a y x)) MAX_VAL
    /\ 0 <= get (rectify_and_clip a) y x <= 255.
Proof.
  intros Ha Hs. rewrite (rectify_and_clip_cells h w a Ha).
  split; [by apply rect_fmap|].
  intros y x Hy Hx. rewrite (get_fmap h w) by done.
  pose proof (proj1 (all_samples_get _ h w a Ha) Hs y x Hy Hx) as Hv.
  cbv beta in Hv. rewrite wrap64_small by (unfold int64; lia).
  unfold MAX_VAL. lia.
Qed.

(** X10. [rectify_and_clip] keeps the shape of its input, and for a sample
    [v] other than the most negative 64-bit integer the output sample is the
    smaller of [|v|] and 255, a value in [0, 255]. *)
Theorem rectify_and_clip_range (h w : nat) (a : raster) :
  rect h w a -> all_samples (fun v => - 2 ^ 63 < v < 2 ^ 63) a ->
  rect h w (rectify_and_clip a) /\
  forall y x, (y < h)%nat -> (x < w)%nat ->
    get (rectify_and_clip a) y x = Z.min (Z.abs (get a y x)) MAX_VAL
    /\ 0 <= get (rectify_and_clip a) y x <= 255.
Proof. exact (rectify_and_clip_get h w a). Qed.

Lemma rectify_and_clip_range_witness :
  rect 2 3 (rectify_and_clip [[-300; 7; 255]; [0; -1; 256]]) /\
  forall y x, (y < 2)%nat -> (x < 3)%nat ->
    get (rectify_and_clip [[-300; 7; 255]; [0; -1; 256]]) y x
    = Z.min (Z.abs (get [[-300; 7; 255]; [0; -1; 256]] y x)) MAX_VAL
    /\ 0 <= get (rectify_and_clip [[-300; 7; 255]; [0; -1; 256]]) y x <= 255.
Proof.
  apply (rectify_and_clip_range 2 3).
  - split; [reflexivity|repeat constructor].
  - repeat constructor; lia.
Defined.

(** ** The stages in sequence, further *)

Lemma all_zero_np_zeros (h w : nat) (a : raster) :
  rect h w a -> all_samples (fun v => v = 0) a -> a = np_zeros h w.
Proof.
  intros Ha Hs. apply (raster_ext h w); [done|apply rect_np_zeros|].
  intros y x Hy Hx. rewrite get_np_zeros.
  exact (proj1 (all_samples_get _ h w a Ha) Hs y x Hy Hx).
Qed.

Lemma rectify_and_clip_zeros (h w : nat) :
  rectify_and_clip (np_zeros h w) = np_zeros h w.
Proof.
  rewrite (rectify_and_clip_cells h w) by apply rect_np_zeros.
  unfold np_zeros. change (map ?f ?l) with (f <$> l).
  by rewrite !fmap_replicate.
Qed.

(** The stages on an image of samples in [0, 255]. *)
Lemma edge_detect_8bit_cells (h w : nat) (a : raster) :
  rect h w a -> (0 < h)%nat -> (0 < w)%nat ->
  all_samples (fun v => 0 <= v <= 255) a ->
  exists out,
    edge_detect a = Ok out /\ rect h w out
    /\ all_samples (fun v => 0 <= v <= 255) out
    /\ forall y x, (y < h)%nat -> (x < w)%nat ->
         (y = 0 \/ y = h - 1 \/ x = 0 \/ x = w - 1)%nat -> get out y x = 0.
Proof.
  intros Ha Hh Hw Hs.
  destruct (conv_laplacian_8bit_cells h w a Ha Hh Hw Hs) as (c & Ec & Hrc & Hc).
  assert (Hsc : all_samples (fun v => - 2040 <= v <= 2040) c).
  { apply (all_samples_get _ h w c Hrc). intros y x Hy Hx.
    by destruct (Hc y x Hy Hx). }
  destruct (thinning_samples (fun v => - 2040 <= v <= 2040) h w c Hrc Hh Hw
              ltac:(cbv beta; lia) Hsc)
    as (t & Et & Hrt & Hst).
  destruct (tracking_samples_bounded 2040 h w t Hrt Hh Hw ltac:(lia) ltac:(lia) Hst)
    as (k & Ek & Hrk & Hsk & Hborder).
  assert (Hsk' : all_samples (fun v => - 2 ^ 63 < v < 2 ^ 63) k).
  { apply (all_samples_get _ h w k Hrk). intros y x Hy Hx.
    pose proof (proj1 (all_samples_get _ h w k Hrk) Hsk y x Hy Hx) as Hv.
    cbv beta in Hv. lia. }
  destruct (rectify_and_clip_get h w k Hrk Hsk') as [Hrr Hr].
  exists (rectify_and_clip k).
  unfold edge_detect. rewrite Ec. cbn [bind]. rewrite Et. cbn [bind].
  rewrite Ek. cbn [bind].
  split; [reflexivity|]. split; [done|]. split.
  - apply (all_samples_get _ h w _ Hrr). intros y x Hy Hx.
    by destruct (Hr y x Hy Hx).
  - intros y x Hy Hx Hb. destruct (Hr y x Hy Hx) as [-> _].
    rewrite (Hborder y x Hy Hx Hb). reflexivity.
Qed.

(** The stages on an image whose Laplacian responses all stay within
    THRESH_HI. *)
Lemma edge_detect_low_response (h w : nat) (a c : raster) :
  rect h w a -> (0 < h)%nat -> (0 < w)%nat ->
  apply_conv_kernel a LAPLACIAN = Ok c -> rect h w c ->
  all_samples (fun v => - THRESH_HI <= v <= THRESH_HI) c ->
  edge_detect a = Ok (np_zeros h w).
Proof.
  intros Ha Hh Hw Ec Hrc Hsc.
  assert (H0 : - THRESH_HI <= 0 <= THRESH_HI) by (unfold THRESH_HI; lia).
  destruct (thinning_samples _ h w c Hrc Hh Hw H0 Hsc) as (t & Et & Hrt & Hst).
  unfold edge_detect. rewrite Ec. cbn [bind]. rewrite Et. cbn [bind].
  rewrite (edge_tracking_no_strong h w t Hrt Hh Hw Hst). cbn [bind].
  by rewrite rectify_and_clip_zeros.
Qed.

(** X11. On an image of [h] by [w] samples in [0, 255] the four stages
    return an array of the same shape whose samples are in [0, 255] and whose
    first and last row and column are 0; no stage raises. *)
Theorem edge_detect_8bit (h w : nat) (a : raster) :
  rect h w a -> (0 < h)%nat -> (0 < w)%nat ->
  all_samples (fun v => 0 <= v <= 255) a ->
  exists out,
    edge_detect a = Ok out /\ rect h w out
    /\ all_samples (fun v => 0 <= v <= 255) out
    /\ forall y x, (y < h)%nat -> (x < w)%nat ->
         (y = 0 \/ y = h - 1 \/ x = 0 \/ x = w - 1)%nat -> get out y x = 0.
Proof. exact (edge_detect_8bit_cells h w a). Qed.

Lemma edge_detect_8bit_witness :
  exists out,
    edge_detect [[0; 255; 0; 9]; [255; 0; 255; 9]; [0; 255; 0; 9]; [1; 2; 3; 4]]
    = Ok out /\ rect 4 4 out
    /\ all_samples (fun v => 0 <= v <= 255) out
    /\ forall y x, (y < 4)%nat -> (x < 4)%nat ->
         (y = 0 \/ y = 4 - 1 \/ x = 0 \/ x = 4 - 1)%nat -> get out y x = 0.
Proof.
  apply (edge_detect_8bit 4 4).
  - split; [reflexivity|repeat constructor].
  - lia.
  - lia.
  - repeat constructor; lia.
Defined.

(** X12. When every sample of the convolution of an image with the Laplacian
    kernel lies within THRESH_HI, the four stages return the array of zeros:
    no edge is reported. *)
Theorem edge_detect_low_response_is_zero (h w : nat) (a c : raster) :
  rect h w a -> (0 < h)%nat -> (0 < w)%nat ->
  apply_conv_kernel a LAPLACIAN = Ok c -> rect h w c ->
  all_samples (fun v => - THRESH_HI <= v <= THRESH_HI) c ->
  edge_detect a = Ok (np_zeros h w).
Proof. exact (edge_detect_low_response h w a c). Qed.

Lemma edge_detect_low_response_is_zero_witness :
  edge_detect [[100; 100; 100; 100]; [100; 110; 100; 100];
               [100; 100; 100; 100]; [100; 100; 100; 100]]
  = Ok (np_zeros 4 4).
Proof.
  apply (edge_detect_low_response_is_zero 4 4 _
           [[-10; -10; 0; 0]; [-10; 80; 0; 0]; [0; 0; 0; 0]; [0; 0; 0; 0]]).
  - split; [reflexivity|repeat constructor].
  - lia.
  - lia.
  - vm_compute. reflexivity.
  - split; [reflexivity|repeat constructor].
  - repeat constructor; unfold THRESH_HI; lia.
Defined.

(** X13. On an image whose samples all equal one value in [0, 255] the four
    stages return the array of zeros. *)
Theorem edge_detect_uniform_image (h w : nat) (v : Z) :
  (0 < h)%nat -> (0 < w)%nat -> 0 <= v <= 255 ->
  edge_detect (replicate h (replicate w v)) = Ok (np_zeros h w).
Proof.
  intros Hh Hw Hv.
  pose proof (rect_uniform h w v) as Ha.
  assert (Hs : all_samples (fun u => 0 <= u <= 255) (replicate h (replicate w v)))
    by (apply Forall_replicate, Forall_replicate; lia).
  assert (Hu : all_samples (fun u => u = v) (replicate h (replicate w v)))
    by (apply Forall_replicate, Forall_replicate; reflexivity).
  destruct (conv_laplacian_8bit_cells h w _ Ha Hh Hw Hs) as (c & Ec & Hrc & Hc).
  apply (edge_detect_low_response h w _ c Ha Hh Hw Ec Hrc).
  apply (all_samples_get _ h w c Hrc). intros y x Hy Hx.
  destruct (Hc y x Hy Hx) as [-> _].
  destruct ((y <? h - 2)%nat && (x <? w - 2)%nat); [|unfold THRESH_HI; lia].
  unfold spec_product_sum, LAPLACIAN.
  cbn [seq flat_map map app fold_right get nth].
  rewrite !(spec_padded_view_sample h w _ Ha Hh Hw (fun u => u = v) _ _ Hu).
  unfold THRESH_HI. lia.
Qed.

Lemma edge_detect_uniform_image_witness :
  edge_detect (replicate 5 (replicate 6 128)) = Ok (np_zeros 5 6).
Proof. apply (edge_detect_uniform_image 5 6 128); lia. Defined.

(** ** The loader, further *)

Section loader_result.
Local Open Scope nat_scope.

Lemma read_header_log (ls strings : list (list byte)) (log : list log_record) :
  read_header ls strings log
  = match read_header ls strings [] with
    | Some (s, r, l) => Some (s, r, log ++ l)
    | None => None
    end.
Proof.
  revert strings log. induction ls as [|line ls IH]; intros strings log.
  - cbn [read_header]. by rewrite app_nil_r.
  - cbn [read_header]. destruct (decode line) as [s|]; [|reflexivity].
    destruct (is_comment s).
    + destruct (4 <=? length strings); [reflexivity|].
      rewrite IH. rewrite (IH strings ([] ++ _)).
      destruct (read_header ls strings []) as [[[s' r'] l']|]; [|reflexivity].
      by rewrite !app_nil_l, app_assoc.
    + destruct (length strings <? 4).
      * destruct (4 <=? length (strings ++ findall_nonspace s));
          [by rewrite app_nil_r|apply IH].
      * destruct (4 <=? length strings); [by rewrite app_nil_r|apply IH].
Qed.

(** The records that the header loop logs are debug records. *)
Lemma read_header_debug (ls strings : list (list byte)) s r l :
  read_header ls strings [] = Some (s, r, l) ->
  Forall (fun rec => fst rec = DEBUG) l.
Proof.
  revert strings l. induction ls as [|line ls IH]; intros strings l.
  - cbn [read_header]. intros [= <- <- <-]. constructor.
  - cbn [read_header]. destruct (decode line) as [s0|]; [|discriminate].
    destruct (is_comment s0).
    + destruct (4 <=? length strings).
      * intros [= <- <- <-]. repeat constructor.
      * rewrite read_header_log.
        destruct (read_header ls strings []) as [[[s' r'] l']|] eqn:E;
          [|discriminate].
        intros [= <- <- <-]. constructor; [reflexivity|]. by eapply IH.
    + destruct (length strings <? 4).
      * destruct (4 <=? length (strings ++ findall_nonspace s0)).
        -- intros [= <- <- <-]. constructor.
        -- apply IH.
      * destruct (4 <=? length strings).
        -- intros [= <- <- <-]. constructor.
        -- apply IH.
Qed.

(** What the header of a file gives, apart from the log. *)
Lemma parse_header_result (f : list byte) :
  snd (parse_header f)
  = match read_header (lines f) [] [] with
    | Some (s, r, _) => check_header s r
    | None => Unmodelled
    end.
Proof.
  unfold parse_header. rewrite read_header_log.
  destruct (read_header (lines f) [] []) as [[[s r] l]|]; [|reflexivity].
  unfold check_header, P5.
  destruct s as [|t1 [|t2 [|t3 [|t4 [|t5 s]]]]]; try reflexivity.
  destruct (negb (str_eqb t1 _)); [reflexivity|].
  destruct (negb (isdigit t2 && isdigit t3)); [reflexivity|].
  destruct (negb (isdigit t4)); reflexivity.
Qed.

(** The log of the header holds no warning. *)
Lemma parse_header_no_warning (f : list byte) :
  Forall (fun rec => fst rec <> WARNING) (fst (parse_header f)).
Proof.
  unfold parse_header. rewrite read_header_log.
  destruct (read_header (lines f) [] []) as [[[s r] l]|] eqn:E;
    [|repeat constructor; done].
  apply read_header_debug in E.
  assert (Hl : Forall (fun rec : log_record => fst rec <> WARNING)
                 (([(INFO, Opening)] ++ l) ++ [(DEBUG, HeaderStrings s)])).
  { apply Forall_app. split; [apply Forall_app; split|]; [repeat constructor; done| |
      repeat constructor; done].
    eapply Forall_impl; [exact E|]. intros rec Hr. simpl. rewrite Hr. done. }
  destruct s as [|t1 [|t2 [|t3 [|t4 [|t5 s]]]]]; try exact Hl.
  destruct (negb (str_eqb t1 _)); [exact Hl|].
  destruct (negb (isdigit t2 && isdigit t3)); [exact Hl|].
  destruct (negb (isdigit t4)); [exact Hl|].
  cbn [fst]. apply Forall_app. split; [exact Hl|repeat constructor; done].
Qed.

(** What the loader returns for a header that parses. *)
Lemma convert_pgm_to_np_arr_parsed (f : list byte) log0 wd ht max_val buf :
  parse_header f = (log0, Ok (wd, ht, max_val, buf)) ->
  convert_pgm_to_np_arr f
  = (((log0 ++ [if length buf =? wd * ht
                then (INFO, RasterSizeExpected wd ht)
                else (WARNING, RasterSizeMismatch wd ht (length buf))])
      ++ concat (map (fun y => row_warnings buf wd y (y * wd)) (seq 0 ht)))
     ++ [(DEBUG, RasterArray (loaded_grid buf wd ht))],
     Ok (loaded_grid buf wd ht)).
Proof.
  intros Hp. unfold convert_pgm_to_np_arr. rewrite Hp.
  by rewrite read_raster_spec.
Qed.

(** The array that the loader returns, apart from the log. *)
Lemma convert_pgm_to_np_arr_result (f : list byte) :
  snd (convert_pgm_to_np_arr f)
  = bind (snd (parse_header f))
      (fun '(wd, ht, _, buf) => Ok (loaded_grid buf wd ht)).
Proof.
  unfold convert_pgm_to_np_arr.
  destruct (parse_header f) as [log [[[[wd ht] mv] buf]|e|]]; cbn [snd bind];
    [|reflexivity|reflexivity].
  by rewrite read_raster_spec.
Qed.

Lemma rect_loaded_grid (buf : list byte) (wd ht : nat) :
  rect ht wd (loaded_grid buf wd ht).
Proof. apply rect_read. Qed.

Lemma get_loaded_grid (buf : list byte) (wd ht y x : nat) :
  y < ht -> x < wd -> get (loaded_grid buf wd ht) y x = sample_at buf (y * wd + x).
Proof. apply get_read. Qed.

Lemma sample_at_byte (buf : list byte) (pos : nat) :
  (0 <= sample_at buf pos <= 255)%Z.
Proof.
  unfold sample_at. destruct (pos <? length buf); [|lia].
  pose proof (Byte.to_N_bounded (nth pos buf x00)). lia.
Qed.

Lemma loaded_grid_8bit (buf : list byte) (wd ht : nat) :
  all_samples (fun v => (0 <= v <= 255)%Z) (loaded_grid buf wd ht).
Proof.
  apply (all_samples_get _ ht wd _ (rect_loaded_grid buf wd ht)).
  intros y x Hy Hx. rewrite get_loaded_grid by done. apply sample_at_byte.
Qed.

Lemma row_warnings_none (buf : list byte) (wd y pos : nat) :
  pos + wd <= length buf -> row_warnings buf wd y pos = [].
Proof.
  intros Hlen. unfold row_warnings.
  assert (E : forall l, Forall (fun x => x < wd) l ->
            filter (fun x => length buf <= pos + x) l = []).
  { induction 1 as [|x l Hx Hl IH]; [reflexivity|].
    rewrite filter_cons_False by (simpl; lia). exact IH. }
  rewrite E; [reflexivity|].
  apply Forall_forall. intros x Hx%elem_of_seq. lia.
Qed.

Lemma no_row_warnings (buf : list byte) (wd ht : nat) :
  wd * ht <= length buf ->
  concat (map (fun y => row_warnings buf wd y (y * wd)) (seq 0 ht)) = [].
Proof.
  intros Hlen.
  assert (E : forall n lo, lo + n <= ht ->
            concat (map (fun y => row_warnings buf wd y (y * wd)) (seq lo n)) = []).
  { induction n as [|n IH]; intros lo Hlo; [reflexivity|].
    cbn [seq map concat]. rewrite IH by lia.
    rewrite row_warnings_none; [reflexivity|]. nia. }
  apply (E ht 0). lia.
Qed.
End loader_result.

(** X14. When the header of a file gives a width and a height and exactly
    width * height bytes follow it, the loader returns the array of these
    bytes, row by row, and its log holds no warning. *)
Theorem loader_exact_raster
    (f : list byte) (log0 : list log_record) (wd ht max_val : nat) (buf : list byte) :
  parse_header f = (log0, Ok (wd, ht, max_val, buf)) ->
  length buf = (wd * ht)%nat ->
  exists log np_arr,
    convert_pgm_to_np_arr f = (log, Ok np_arr)
    /\ rect ht wd np_arr
    /\ (forall y x, (y < ht)%nat -> (x < wd)%nat ->
          get np_arr y x = Z.of_N (Byte.to_N (nth (y * wd + x) buf x00)))
    /\ Forall (fun rec => fst rec <> WARNING) log.
Proof.
  intros Hp Hlen.
  rewrite (convert_pgm_to_np_arr_parsed f _ _ _ _ _ Hp).
  eexists _, _. split; [reflexivity|].
  split; [apply rect_loaded_grid|]. split.
  - intros y x Hy Hx. rewrite get_loaded_grid by done.
    unfold sample_at. by rewrite (proj2 (Nat.ltb_lt _ _)) by nia.
  - rewrite no_row_warnings by lia. rewrite app_nil_r.
    rewrite (proj2 (Nat.eqb_eq _ _) Hlen).
    pose proof (parse_header_no_warning f) as Hw. rewrite Hp in Hw.
    repeat (apply Forall_app; split); [exact Hw|repeat constructor; done..].
Qed.

Lemma loader_exact_raster_witness :
  exists log np_arr,
    convert_pgm_to_np_arr
      (header_on_lines [P5; ["2"%byte]; ["3"%byte]; ["7"%byte]]
       ++ [x01; x02; x03; x04; x05; xff])
    = (log, Ok np_arr)
    /\ rect 3 2 np_arr
    /\ (forall y x, (y < 3)%nat -> (x < 2)%nat ->
          get np_arr y x
          = Z.of_N (Byte.to_N (nth (y * 2 + x) [x01; x02; x03; x04; x05; xff] x00)))
    /\ Forall (fun rec => fst rec <> WARNING) log.
Proof.
  apply (loader_exact_raster _
           (fst (parse_header
                   (header_on_lines [P5; ["2"%byte]; ["3"%byte]; ["7"%byte]]
                    ++ [x01; x02; x03; x04; x05; xff]))) 2 3 7).
  - vm_compute. reflexivity.
  - reflexivity.
Defined.

(** X15. When more than width * height bytes follow the header, the loader
    returns the array of the first width * height of them; the only warning
    in its log is the one about the size of the raster. *)
Theorem loader_ignores_extra_bytes
    (f : list byte) (log0 : list log_record) (wd ht max_val : nat) (buf : list byte) :
  parse_header f = (log0, Ok (wd, ht, max_val, buf)) ->
  (wd * ht < length buf)%nat ->
  exists log np_arr,
    convert_pgm_to_np_arr f = (log, Ok np_arr)
    /\ rect ht wd np_arr
    /\ (forall y x, (y < ht)%nat -> (x < wd)%nat ->
          get np_arr y x = Z.of_N (Byte.to_N (nth (y * wd + x) buf x00)))
    /\ (WARNING, RasterSizeMismatch wd ht (length buf)) ∈ log
    /\ (forall rec, rec ∈ log -> fst rec = WARNING ->
          rec = (WARNING, RasterSizeMismatch wd ht (length buf))).
Proof.
  intros Hp Hlen.
  rewrite (convert_pgm_to_np_arr_parsed f _ _ _ _ _ Hp).
  eexists _, _. split; [reflexivity|].
  split; [apply rect_loaded_grid|]. split; [|split].
  - intros y x Hy Hx. rewrite get_loaded_grid by done.
    unfold sample_at. by rewrite (proj2 (Nat.ltb_lt _ _)) by nia.
  - rewrite (proj2 (Nat.eqb_neq _ _)) by lia.
    rewrite !elem_of_app. left. left. right. by apply list_elem_of_singleton.
  - rewrite no_row_warnings by lia. rewrite app_nil_r.
    rewrite (proj2 (Nat.eqb_neq _ _)) by lia.
    pose proof (parse_header_no_warning f) as Hw. rewrite Hp in Hw.
    cbn [fst] in Hw. rewrite Forall_forall in Hw.
    intros rec Hin Hlev.
    rewrite !elem_of_app in Hin. destruct Hin as [[Hin|Hin]|Hin].
    + by destruct (Hw rec Hin).
    + by apply list_elem_of_singleton in Hin.
    + apply list_elem_of_singleton in Hin. subst rec. discriminate.
Qed.

Lemma loader_ignores_extra_bytes_witness :
  exists log np_arr,
    convert_pgm_to_np_arr
      (header_on_lines [P5; ["2"%byte]; ["2"%byte]; ["7"%byte]]
       ++ [x01; x02; x03; x04; x05; xff])
    = (log, Ok np_arr)
    /\ rect 2 2 np_arr
    /\ (forall y x, (y < 2)%nat -> (x < 2)%nat ->
          get np_arr y x
          = Z.of_N (Byte.to_N (nth (y * 2 + x) [x01; x02; x03; x04; x05; xff] x00)))
    /\ (WARNING, RasterSizeMismatch 2 2 6) ∈ log
    /\ (forall rec, rec ∈ log -> fst rec = WARNING ->
          rec = (WARNING, RasterSizeMismatch 2 2 6)).
Proof.
  apply (loader_ignores_extra_bytes _
           (fst (parse_header
                   (header_on_lines [P5; ["2"%byte]; ["2"%byte]; ["7"%byte]]
                    ++ [x01; x02; x03; x04; x05; xff]))) 2 2 7).
  - vm_compute. reflexivity.
  - simpl. lia.
Defined.

(** X16. Whenever the header of a file parses, whatever the number of bytes
    after it, the loader returns an array of height rows and width columns
    whose samples are all in [0, 255]. *)
Theorem loader_returns_bytes
    (f : list byte) (log0 : list log_record) (wd ht max_val : nat) (buf : list byte) :
  parse_header f = (log0, Ok (wd, ht, max_val, buf)) ->
  exists log np_arr,
    convert_pgm_to_np_arr f = (log, Ok np_arr)
    /\ rect ht wd np_arr
    /\ all_samples (fun v => 0 <= v <= 255) np_arr.
Proof.
  intros Hp. rewrite (convert_pgm_to_np_arr_parsed f _ _ _ _ _ Hp).
  eexists _, _. split; [reflexivity|].
  split; [apply rect_loaded_grid|apply loaded_grid_8bit].
Qed.

Lemma loader_returns_bytes_witness :
  exists log np_arr,
    convert_pgm_to_np_arr ex_file_4x4_10 = (log, Ok np_arr)
    /\ rect 4 4 np_arr
    /\ all_samples (fun v => 0 <= v <= 255) np_arr.
Proof.
  apply (loader_returns_bytes ex_file_4x4_10
           (fst (parse_header ex_file_4x4_10)) 4 4 255
           [x01; x02; x03; x04; x05; x06; x07; x08; x09; x0b]).
  vm_compute. reflexivity.
Defined.

(** ** Layouts of the header *)

Section header_layouts.
Local Open Scope nat_scope.

Lemma str_eqb_eq (s t : list byte) : str_eqb s t = true <-> s = t.
Proof.
  revert t. induction s as [|c s IH]; intros [|d t]; cbn [str_eqb];
    try (split; [discriminate|discriminate]); [by split|].
  rewrite andb_true_iff, IH. split.
  - intros [Hc ->]. by apply byte_dec_bl in Hc as ->.
  - intros [= -> ->]. split; [by apply byte_dec_lb|done].
Qed.

Lemma isdigit_word (t : list byte) : isdigit t = true -> header_word t.
Proof.
  intros Hd.
  assert (Hf : Forall (fun b => is_digit b = true) t).
  { unfold isdigit in Hd. destruct t as [|c t]; [discriminate|].
    apply Forall_forall. intros b Hb%list_elem_of_In.
    by apply (proj1 (forallb_forall _ _) Hd). }
  destruct t as [|c t]; [discriminate|].
  split; [done|]. split.
  - eapply Forall_impl; [exact Hf|].
    intros b Hb. by destruct (digit_is_word_char b Hb) as (? & ? & _).
  - apply Forall_cons in Hf as [Hc _].
    by destruct (digit_is_word_char c Hc) as (_ & _ & ?).
Qed.

Lemma lines_prepend (p X l : list byte) (ls : list (list byte)) :
  Forall (fun b => Byte.eqb b newline = false) p ->
  lines X = l :: ls -> lines (p ++ X) = (p ++ l) :: ls.
Proof.
  intros Hp HX. induction Hp as [|b p Hb Hp IH]; [exact HX|].
  cbn [app lines]. by rewrite Hb, IH.
Qed.

Lemma lines_no_newline (t rest : list byte) :
  Forall (fun b => Byte.eqb b newline = false) t ->
  lines (t ++ newline :: rest) = (t ++ [newline]) :: lines rest.
Proof. intros Ht. by apply lines_prepend. Qed.

Lemma word_no_newline (t : list byte) :
  header_word t -> Forall (fun b => Byte.eqb b newline = false) t.
Proof.
  intros (_ & Hf & _). eapply Forall_impl; [exact Hf|].
  intros b [Hb _]. by apply not_space_not_newline.
Qed.

Lemma word_7bit (t : list byte) :
  header_word t -> forallb (fun b => (Byte.to_N b <? 128)%N) t = true.
Proof.
  intros (_ & Hf & _). apply forallb_forall. intros b Hb%list_elem_of_In.
  rewrite Forall_forall in Hf. by destruct (Hf b Hb).
Qed.

Lemma lines_header_on_lines (ws : list (list byte)) (rest : list byte) :
  Forall header_word ws ->
  lines (header_on_lines ws ++ rest)
  = map (fun t => t ++ [newline]) ws ++ lines rest.
Proof.
  unfold header_on_lines.
  induction 1 as [|t ws Ht Hws IH]; [reflexivity|].
  cbn [map concat]. rewrite <- !app_assoc. cbn [app].
  rewrite (lines_no_newline t _ (word_no_newline t Ht)). by rewrite IH.
Qed.

(** The header loop on lines that hold one string each, while fewer than
    four strings are collected. *)
Lemma read_header_words (ws : list (list byte)) (ls strings : list (list byte)) :
  Forall header_word ws -> length strings + length ws < 4 ->
  read_header (map (fun t => t ++ [newline]) ws ++ ls) strings []
  = read_header ls (strings ++ ws) [].
Proof.
  intros Hws. revert strings.
  induction Hws as [|t ws Ht Hws IH]; intros strings Hlen.
  - by rewrite app_nil_r.
  - cbn [map app length] in *.
    rewrite (read_header_word t _ _ _ Ht) by lia.
    rewrite (proj2 (Nat.leb_gt _ _)) by (rewrite length_app; simpl; lia).
    rewrite IH by (rewrite length_app; simpl; lia).
    by rewrite <- app_assoc.
Qed.

(** Four strings, one per line. *)
Lemma parse_header_on_lines (t1 t2 t3 t4 rest : list byte) :
  Forall header_word [t1; t2; t3; t4] ->
  snd (parse_header (header_on_lines [t1; t2; t3; t4] ++ rest))
  = check_header [t1; t2; t3; t4] (lines rest).
Proof.
  intros Hws. rewrite parse_header_result, (lines_header_on_lines _ _ Hws).
  apply Forall_cons in Hws as [H1 Hws]. apply Forall_cons in Hws as [H2 Hws].
  apply Forall_cons in Hws as [H3 Hws]. apply Forall_cons in Hws as [H4 _].
  change [t1; t2; t3; t4] with ([t1; t2; t3] ++ [t4]) at 1.
  rewrite map_app, <- app_assoc.
  rewrite (read_header_words [t1; t2; t3]); [|by repeat apply List.Forall_cons|simpl; lia].
  cbn [map app].
  by rewrite (read_header_word t4) by (done || (simpl; lia)).
Qed.
End header_layouts.

Section one_line.
Local Open Scope nat_scope.

Lemma findall_nonspace_from_sep (cur t more : list byte) (sp : byte) :
  Forall (fun b => is_space b = false /\ (Byte.to_N b <? 128)%N = true) t ->
  rev cur ++ t <> [] -> is_space sp = true ->
  findall_nonspace_from cur (t ++ sp :: more)
  = (rev cur ++ t) :: findall_nonspace_from [] more.
Proof.
  intros Hf. revert cur.
  induction Hf as [|b t [Hb _] Hf IH]; intros cur Hne Hsp;
    cbn [app findall_nonspace_from].
  - rewrite Hsp. rewrite app_nil_r in *. destruct cur; [done|reflexivity].
  - rewrite Hb. rewrite IH; [|cbn [rev]; rewrite <- app_assoc; by destruct (rev cur)|done].
    cbn [rev]. by rewrite <- app_assoc.
Qed.

Lemma findall_one_line (t : list byte) (ws : list (list byte)) :
  Forall header_word (t :: ws) ->
  findall_nonspace (header_on_one_line t ws) = t :: ws.
Proof.
  unfold findall_nonspace. revert t.
  induction ws as [|t' ws IH]; intros t Hws;
    apply Forall_cons in Hws as [(Hne & Hf & _) Hws]; cbn [header_on_one_line].
  - rewrite findall_nonspace_from_sep by done. reflexivity.
  - rewrite findall_nonspace_from_sep by done. cbn [rev app]. by rewrite IH.
Qed.

Lemma lines_one_line (t : list byte) (ws : list (list byte)) (rest : list byte) :
  Forall header_word (t :: ws) ->
  lines (header_on_one_line t ws ++ rest) = header_on_one_line t ws :: lines rest.
Proof.
  revert t. induction ws as [|t' ws IH]; intros t Hws;
    apply Forall_cons in Hws as [Ht Hws]; cbn [header_on_one_line].
  - rewrite <- app_assoc. cbn [app].
    by apply lines_no_newline, word_no_newline.
  - rewrite <- app_assoc. cbn [app].
    apply lines_prepend; [by apply word_no_newline|].
    cbn [lines]. change (Byte.eqb " "%byte newline) with false. cbn iota.
    by rewrite IH.
Qed.

Lemma decode_one_line (t : list byte) (ws : list (list byte)) :
  Forall header_word (t :: ws) ->
  decode (header_on_one_line t ws) = Some (header_on_one_line t ws).
Proof.
  intros Hws. unfold decode.
  assert (E : forallb (fun b => (Byte.to_N b <? 128)%N) (header_on_one_line t ws)
              = true).
  { revert t Hws. induction ws as [|t' ws IH]; intros t Hws;
      apply Forall_cons in Hws as [Ht Hws]; cbn [header_on_one_line];
      rewrite forallb_app, (word_7bit t Ht); cbn [andb forallb].
    - reflexivity.
    - change (Byte.to_N " "%byte <? 128)%N with true. cbn [andb]. by apply IH. }
  by rewrite E.
Qed.

Lemma header_on_one_line_starts (t : list byte) (ws : list (list byte)) :
  exists more, header_on_one_line t ws = t ++ more.
Proof. destruct ws; cbn [header_on_one_line]; eauto. Qed.

(** The header loop on a first line that holds the strings [t], [ws]. *)
Lemma read_header_one_line (t : list byte) (ws ls : list (list byte)) :
  Forall header_word (t :: ws) ->
  read_header (header_on_one_line t ws :: ls) [] []
  = if 4 <=? length (t :: ws) then Some (t :: ws, ls, [])
    else read_header ls (t :: ws) [].
Proof.
  intros Hws. cbn [read_header].
  rewrite (decode_one_line t ws Hws).
  destruct (header_on_one_line_starts t ws) as [more E].
  assert (Ht : header_word t) by (by apply Forall_cons in Hws as [? _]).
  rewrite E at 1. rewrite (is_comment_word t more Ht).
  cbn [length Nat.ltb Nat.leb app]. by rewrite (findall_one_line t ws Hws).
Qed.

Lemma is_comment_app (c more : list byte) :
  is_comment c = true -> is_comment (c ++ more) = true.
Proof.
  induction c as [|b c IH]; [discriminate|].
  cbn [app is_comment]. by destruct (is_space b).
Qed.

(** The header loop on a comment line. *)
Lemma read_header_comment (c : list byte) (ls strings : list (list byte)) :
  forallb (fun b => (Byte.to_N b <? 128)%N) c = true ->
  is_comment c = true -> length strings < 4 ->
  read_header ((c ++ [newline]) :: ls) strings []
  = match read_header ls strings [] with
    | Some (s, r, l) => Some (s, r, (DEBUG, IgnoringComment (c ++ [newline])) :: l)
    | None => None
    end.
Proof.
  intros H7 Hc Hlen. cbn [read_header]. unfold decode.
  rewrite forallb_app, H7. cbn [forallb andb].
  change ((Byte.to_N newline <? 128)%N && true) with true. cbv iota.
  rewrite (is_comment_app c [newline] Hc).
  rewrite (proj2 (Nat.leb_gt _ _)) by lia.
  by rewrite read_header_log.
Qed.
End one_line.

(** Proves [header_word] and [Forall header_word] of given strings. *)
Ltac header_words :=
  repeat apply List.Forall_cons; try apply List.Forall_nil;
  (split; [discriminate|split; [repeat constructor|reflexivity]]).

(** X17. A comment line between the header strings is skipped: with fewer
    than four header strings read so far, one per line, a following line of
    7-bit characters whose first character after white space is the comment
    mark changes nothing in what the loader returns. *)
Theorem loader_skips_comment_line (ws : list (list byte)) (c rest : list byte) :
  Forall header_word ws -> (length ws < 4)%nat ->
  forallb (fun b => (Byte.to_N b <? 128)%N && negb (Byte.eqb b newline)) c = true ->
  is_comment c = true ->
  snd (convert_pgm_to_np_arr (header_on_lines ws ++ c ++ newline :: rest))
  = snd (convert_pgm_to_np_arr (header_on_lines ws ++ rest)).
Proof.
  intros Hws Hlen Hc Hcom.
  rewrite !convert_pgm_to_np_arr_result. f_equal.
  rewrite !parse_header_result, !(lines_header_on_lines _ _ Hws).
  rewrite !(read_header_words ws _ [] Hws) by (simpl; lia). cbn [app].
  assert (H7 : forallb (fun b => (Byte.to_N b <? 128)%N) c = true).
  { apply forallb_forall. intros b Hb.
    apply (proj1 (forallb_forall _ _) Hc) in Hb. by apply andb_true_iff in Hb as [? _]. }
  assert (Hnl : Forall (fun b => Byte.eqb b newline = false) c).
  { apply Forall_forall. intros b Hb%list_elem_of_In.
    apply (proj1 (forallb_forall _ _) Hc) in Hb.
    apply andb_true_iff in Hb as [_ Hb]. by apply negb_true_iff in Hb. }
  rewrite (lines_no_newline c rest Hnl).
  rewrite (read_header_comment c _ ws H7 Hcom Hlen).
  by destruct (read_header (lines rest) ws []) as [[[s r] l]|].
Qed.

Lemma loader_skips_comment_line_witness :
  snd (convert_pgm_to_np_arr
         (header_on_lines [P5]
          ++ [" "%byte; "#"%byte; " "%byte; "4"%byte; " "%byte; "4"%byte]
          ++ newline :: header_on_lines [["2"%byte]; ["1"%byte]; ["9"%byte]]
          ++ [x07; x08]))
  = snd (convert_pgm_to_np_arr
           (header_on_lines [P5]
            ++ header_on_lines [["2"%byte]; ["1"%byte]; ["9"%byte]] ++ [x07; x08])).
Proof.
  apply (loader_skips_comment_line [P5]
           [" "%byte; "#"%byte; " "%byte; "4"%byte; " "%byte; "4"%byte]).
  - header_words.
  - simpl. lia.
  - reflexivity.
  - reflexivity.
Defined.

(** X18. Four header strings on one line, a space between two of them, give
    what the same strings give one per line. *)
Theorem loader_header_on_one_line (t1 t2 t3 t4 rest : list byte) :
  Forall header_word [t1; t2; t3; t4] ->
  snd (convert_pgm_to_np_arr (header_on_one_line t1 [t2; t3; t4] ++ rest))
  = snd (convert_pgm_to_np_arr (header_on_lines [t1; t2; t3; t4] ++ rest)).
Proof.
  intros Hws. rewrite !convert_pgm_to_np_arr_result. f_equal.
  rewrite (parse_header_on_lines _ _ _ _ _ Hws).
  rewrite parse_header_result, (lines_one_line _ _ _ Hws).
  by rewrite (read_header_one_line _ _ _ Hws).
Qed.

Lemma loader_header_on_one_line_witness :
  snd (convert_pgm_to_np_arr
         (header_on_one_line P5 [["2"%byte]; ["1"%byte]; ["2"%byte; "5"%byte; "5"%byte]]
          ++ [x07; x08]))
  = snd (convert_pgm_to_np_arr
           (header_on_lines [P5; ["2"%byte]; ["1"%byte]; ["2"%byte; "5"%byte; "5"%byte]]
            ++ [x07; x08])).
Proof. apply loader_header_on_one_line. header_words. Defined.

(** X19. When the first line of a file holds five header strings or more,
    the loader raises its exception about the header: the strings of the line
    that completes the header all count. *)
Theorem loader_rejects_fifth_header_string
    (t : list byte) (ws : list (list byte)) (rest : list byte) :
  Forall header_word (t :: ws) -> (4 <= length ws)%nat ->
  snd (convert_pgm_to_np_arr (header_on_one_line t ws ++ rest))
  = Raise (PlainException NoHeader).
Proof.
  intros Hws Hlen. rewrite convert_pgm_to_np_arr_result.
  rewrite parse_header_result, (lines_one_line _ _ _ Hws).
  rewrite (read_header_one_line _ _ _ Hws).
  rewrite (proj2 (Nat.leb_le _ _)) by (simpl; lia).
  by destruct ws as [|t2 [|t3 [|t4 [|t5 ws]]]]; simpl in Hlen; try lia.
Qed.

Lemma loader_rejects_fifth_header_string_witness :
  snd (convert_pgm_to_np_arr
         (header_on_one_line P5
            [["2"%byte]; ["1"%byte]; ["2"%byte; "5"%byte; "5"%byte]; ["A"%byte; "B"%byte]]
          ++ []))
  = Raise (PlainException NoHeader).
Proof.
  apply loader_rejects_fifth_header_string.
  - header_words.
  - simpl. lia.
Defined.

(** X20. When the first of four header strings is not P5, the loader raises
    its exception about the magic number, whatever the three other strings
    and the bytes after the header are. *)
Theorem loader_rejects_wrong_magic (t1 t2 t3 t4 rest : list byte) :
  Forall header_word [t1; t2; t3; t4] -> t1 <> P5 ->
  snd (convert_pgm_to_np_arr (header_on_lines [t1; t2; t3; t4] ++ rest))
  = Raise (PlainException BadMagic).
Proof.
  intros Hws Hm. rewrite convert_pgm_to_np_arr_result.
  rewrite (parse_header_on_lines _ _ _ _ _ Hws). unfold check_header.
  destruct (str_eqb t1 P5) eqn:E; [|reflexivity].
  by apply str_eqb_eq in E.
Qed.

Lemma loader_rejects_wrong_magic_witness :
  snd (convert_pgm_to_np_arr
         (header_on_lines [["P"%byte; "2"%byte]; ["2"%byte]; ["1"%byte]; ["9"%byte]]
          ++ [x07; x08]))
  = Raise (PlainException BadMagic).
Proof.
  apply loader_rejects_wrong_magic.
  - header_words.
  - discriminate.
Defined.

(** X21. With the magic number P5, a width or a height that is not a string
    of decimal digits (a sign, a decimal point) makes the loader raise its
    exception about the dimensions. *)
Theorem loader_rejects_non_digit_dimension (t2 t3 t4 rest : list byte) :
  Forall header_word [t2; t3; t4] -> isdigit t2 && isdigit t3 = false ->
  snd (convert_pgm_to_np_arr (header_on_lines [P5; t2; t3; t4] ++ rest))
  = Raise (PlainException BadDimensions).
Proof.
  intros Hws Hd. rewrite convert_pgm_to_np_arr_result.
  rewrite parse_header_on_lines by (apply List.Forall_cons; [apply magic_word|done]).
  unfold check_header.
  change (str_eqb P5 P5) with true. cbn [negb]. by rewrite Hd.
Qed.

Lemma loader_rejects_non_digit_dimension_witness :
  snd (convert_pgm_to_np_arr
         (header_on_lines [P5; ["-"%byte; "2"%byte]; ["1"%byte]; ["9"%byte]]
          ++ [x07; x08]))
  = Raise (PlainException BadDimensions).
Proof.
  apply loader_rejects_non_digit_dimension.
  - header_words.
  - reflexivity.
Defined.

(** X22. With the magic number P5 and three strings of decimal digits the
    loader returns an array of the height and width that the digits spell
    (leading zeros allowed): a sample that has a byte after the header is
    that byte, another one is 0.  The maximum grey value has no part in
    it. *)
Theorem loader_accepts_digit_header (t2 t3 t4 rest : list byte) :
  isdigit t2 = true -> isdigit t3 = true -> isdigit t4 = true ->
  exists np_arr,
    snd (convert_pgm_to_np_arr (header_on_lines [P5; t2; t3; t4] ++ rest))
    = Ok np_arr
    /\ rect (py_int t3) (py_int t2) np_arr
    /\ forall y x, (y < py_int t3)%nat -> (x < py_int t2)%nat ->
         get np_arr y x
         = if (y * py_int t2 + x <? length rest)%nat
           then Z.of_N (Byte.to_N (nth (y * py_int t2 + x) rest x00))
           else 0.
Proof.
  intros H2 H3 H4. rewrite convert_pgm_to_np_arr_result.
  rewrite parse_header_on_lines
    by (repeat apply List.Forall_cons; try apply List.Forall_nil;
        [apply magic_word|by apply isdigit_word..]).
  unfold check_header.
  change (str_eqb P5 P5) with true. rewrite H2, H3, H4. cbn [negb andb bind].
  rewrite concat_lines. eexists. split; [reflexivity|].
  split; [apply rect_loaded_grid|].
  intros y x Hy Hx. by rewrite get_loaded_grid.
Qed.

Lemma loader_accepts_digit_header_witness :
  exists np_arr,
    snd (convert_pgm_to_np_arr
           (header_on_lines
              [P5; ["0"%byte; "2"%byte]; ["1"%byte];
               ["6"%byte; "5"%byte; "5"%byte; "3"%byte; "5"%byte]]
            ++ [x07; x08]))
    = Ok np_arr
    /\ rect (py_int ["1"%byte]) (py_int ["0"%byte; "2"%byte]) np_arr
    /\ forall y x,
         (y < py_int ["1"%byte])%nat -> (x < py_int ["0"%byte; "2"%byte])%nat ->
         get np_arr y x
         = if (y * py_int ["0"%byte; "2"%byte] + x <? length [x07; x08])%nat
           then Z.of_N (Byte.to_N
                          (nth (y * py_int ["0"%byte; "2"%byte] + x) [x07; x08] x00))
           else 0.
Proof. apply loader_accepts_digit_header; reflexivity. Defined.

(** X23. A file that ends after fewer than four header strings, one per
    line, makes the loader raise its exception about the header; the empty
    file is one of them. *)
Theorem loader_rejects_short_header (ws : list (list byte)) :
  Forall header_word ws -> (length ws < 4)%nat ->
  snd (convert_pgm_to_np_arr (header_on_lines ws))
  = Raise (PlainException NoHeader).
Proof.
  intros Hws Hlen. rewrite convert_pgm_to_np_arr_result.
  rewrite parse_header_result.
  rewrite <- (app_nil_r (header_on_lines ws)).
  rewrite (lines_header_on_lines _ _ Hws).
  rewrite (read_header_words ws _ [] Hws) by (simpl; lia).
  cbn [lines read_header app].
  by destruct ws as [|t1 [|t2 [|t3 [|t4 ws]]]]; simpl in Hlen; try lia.
Qed.

Lemma loader_rejects_short_header_witness :
  snd (convert_pgm_to_np_arr (header_on_lines [P5; ["2"%byte]; ["1"%byte]]))
  = Raise (PlainException NoHeader).
Proof.
  apply loader_rejects_short_header.
  - header_words.
  - simpl. lia.
Defined.

(** ** The writer, further *)

Section writer_more.
Local Open Scope nat_scope.

Lemma write_samples_8bit (ps : list Z) :
  Forall (fun v => (0 <= v <= 255)%Z) ps ->
  write_samples ps = Ok (concat (map utf8 ps)).
Proof.
  induction 1 as [|p ps Hp Hps IH]; cbn [write_samples map concat]; [reflexivity|].
  unfold write_chr.
  rewrite (proj2 (Z.ltb_ge p (- 2 ^ 31))) by lia.
  rewrite (proj2 (Z.ltb_ge (2 ^ 31 - 1) p)) by lia.
  rewrite (proj2 (Z.ltb_ge p 0)) by lia.
  rewrite (proj2 (Z.ltb_ge 1114111 p)) by lia.
  rewrite (proj2 (Z.leb_gt 55296 p)) by lia.
  cbn [orb andb]. by rewrite IH.
Qed.

Lemma length_utf8_8bit (ps : list Z) :
  Forall (fun v => (0 <= v <= 255)%Z) ps ->
  length (concat (map utf8 ps))
  = length ps + length (filter (fun v => (128 <= v)%Z) ps).
Proof.
  induction 1 as [|p ps Hp Hps IH]; [reflexivity|].
  cbn [map concat]. rewrite length_app, IH. unfold utf8.
  destruct (Z.ltb_spec p 128).
  - rewrite filter_cons_False by lia. simpl. lia.
  - rewrite filter_cons_True by lia.
    rewrite (proj2 (Z.ltb_lt p 2048)) by lia. simpl. lia.
Qed.

Lemma written_header (wd ht : nat) (body : list byte) :
  ([ "P"%byte; "5"%byte; newline]
   ++ py_str wd ++ [newline] ++ py_str ht ++ [newline]
   ++ py_str (Z.to_nat MAX_VAL) ++ [newline]) ++ body ++ [newline]
  = header_on_lines [P5; py_str wd; py_str ht; py_str (Z.to_nat MAX_VAL)]
    ++ body ++ [newline].
Proof.
  unfold header_on_lines, P5. cbn [map concat].
  rewrite <- !app_assoc. reflexivity.
Qed.

(** What the writer gives for samples in [0, 255]. *)
Lemma convert_np_arr_to_pgm_8bit (a : raster) :
  all_samples (fun v => (0 <= v <= 255)%Z) a ->
  convert_np_arr_to_pgm a
  = Ok (header_on_lines [P5; py_str (ncols a); py_str (nrows a);
                         py_str (Z.to_nat MAX_VAL)]
        ++ concat (map utf8 (concat a)) ++ [newline]).
Proof.
  intros Hs. unfold convert_np_arr_to_pgm.
  rewrite write_samples_8bit by by apply Forall_concat.
  by rewrite written_header.
Qed.

Lemma parse_written_header (wd ht : nat) (rest : list byte) :
  snd (parse_header
         (header_on_lines [P5; py_str wd; py_str ht; py_str (Z.to_nat MAX_VAL)]
          ++ rest))
  = Ok (wd, ht, Z.to_nat MAX_VAL, rest).
Proof.
  rewrite parse_header_on_lines
    by (repeat apply List.Forall_cons; try apply List.Forall_nil;
        [apply magic_word|apply py_str_word..]).
  unfold check_header. change (str_eqb P5 P5) with true.
  assert (Hd : forall n, isdigit (py_str n) = true).
  { intros n. unfold isdigit.
    pose proof (py_str_nonempty n). pose proof (py_str_digits n) as Hf.
    destruct (py_str n) as [|b t] eqn:E; [done|]. rewrite <- E in *.
    clear E. apply forallb_forall. intros c Hc%list_elem_of_In.
    rewrite Forall_forall in Hf. by apply Hf. }
  rewrite !Hd. cbn [negb andb]. by rewrite !py_int_py_str, concat_lines.
Qed.

Lemma write_samples_negative (ps : list Z) :
  Forall (fun v => (- 2 ^ 31 <= v < 55296)%Z) ps ->
  Exists (fun v => (v < 0)%Z) ps ->
  write_samples ps = Raise ValueError.
Proof.
  intros Hr He. induction He as [p ps Hp|p ps He IH];
    apply Forall_cons in Hr as [Hr Hrs]; cbn [write_samples]; unfold write_chr;
    rewrite (proj2 (Z.ltb_ge p (- 2 ^ 31))) by lia;
    rewrite (proj2 (Z.ltb_ge (2 ^ 31 - 1) p)) by lia; cbn [orb].
  - by rewrite (proj2 (Z.ltb_lt p 0)) by lia.
  - destruct (Z.ltb_spec p 0); [reflexivity|].
    rewrite (proj2 (Z.ltb_ge 1114111 p)) by lia.
    rewrite (proj2 (Z.leb_gt 55296 p)) by lia.
    cbn [orb andb]. by rewrite (IH Hrs).
Qed.
End writer_more.

(** X24. Writing an array whose samples are all in [0, 127] and reading the
    file back gives the array: below 128 a character is one byte. *)
Theorem writer_then_loader_round_trip_7bit (h w : nat) (a : raster) :
  rect h w a -> all_samples (fun v => 0 <= v < 128) a ->
  exists f,
    convert_np_arr_to_pgm a = Ok f /\ snd (convert_pgm_to_np_arr f) = Ok a.
Proof. exact (writer_then_loader_7bit h w a). Qed.

Lemma writer_then_loader_round_trip_7bit_witness :
  exists f,
    convert_np_arr_to_pgm [[0; 10; 127]; [35; 32; 13]] = Ok f
    /\ snd (convert_pgm_to_np_arr f) = Ok [[0; 10; 127]; [35; 32; 13]].
Proof.
  apply (writer_then_loader_round_trip_7bit 2 3).
  - split; [reflexivity|repeat constructor].
  - repeat constructor; lia.
Defined.

(** X25. For an array of samples in [0, 255] the writer does not raise.  The
    file is the four header lines P5, width, height and 255, then the raster
    and a line feed; the raster holds one byte for a sample below 128 and two
    bytes for a sample from 128 on. *)
Theorem writer_file_layout (a : raster) :
  all_samples (fun v => 0 <= v <= 255) a ->
  exists body,
    convert_np_arr_to_pgm a
    = Ok (header_on_lines [P5; py_str (ncols a); py_str (nrows a); py_str 255]
          ++ body ++ [newline])
    /\ length body
       = Nat.add (length (concat a)) (length (filter (fun v => 128 <= v) (concat a))).
Proof.
  intros Hs. exists (concat (map utf8 (concat a))). split.
  - by apply convert_np_arr_to_pgm_8bit.
  - apply length_utf8_8bit. by apply Forall_concat.
Qed.

Lemma writer_file_layout_witness :
  exists body,
    convert_np_arr_to_pgm [[0; 255]; [128; 127]]
    = Ok (header_on_lines
            [P5; py_str (ncols [[0; 255]; [128; 127]]);
             py_str (nrows [[0; 255]; [128; 127]]); py_str 255]
          ++ body ++ [newline])
    /\ length body
       = Nat.add (length (concat [[0; 255]; [128; 127]]))
           (length (filter (fun v => 128 <= v) (concat [[0; 255]; [128; 127]]))).
Proof. apply writer_file_layout. repeat constructor; lia. Defined.

(** X26. Writing an array of samples in [0, 255] and reading the file back
    gives an array of the shape of the one written, with samples in
    [0, 255]: the header holds the width and the height, and the raster is
    never too short. *)
Theorem writer_then_loader_keeps_shape (h w : nat) (a : raster) :
  rect h w a -> all_samples (fun v => 0 <= v <= 255) a ->
  exists f np_arr,
    convert_np_arr_to_pgm a = Ok f
    /\ snd (convert_pgm_to_np_arr f) = Ok np_arr
    /\ rect (nrows a) (ncols a) np_arr
    /\ all_samples (fun v => 0 <= v <= 255) np_arr.
Proof.
  intros Ha Hs. rewrite (convert_np_arr_to_pgm_8bit a Hs).
  eexists _, _. split; [reflexivity|].
  rewrite convert_pgm_to_np_arr_result, parse_written_header. cbn [bind].
  split; [reflexivity|].
  split; [apply rect_loaded_grid|apply loaded_grid_8bit].
Qed.

Lemma writer_then_loader_keeps_shape_witness :
  exists f np_arr,
    convert_np_arr_to_pgm [[0; 255; 7]; [128; 127; 200]] = Ok f
    /\ snd (convert_pgm_to_np_arr f) = Ok np_arr
    /\ rect (nrows [[0; 255; 7]; [128; 127; 200]])
            (ncols [[0; 255; 7]; [128; 127; 200]]) np_arr
    /\ all_samples (fun v => 0 <= v <= 255) np_arr.
Proof.
  apply (writer_then_loader_keeps_shape 2 3).
  - split; [reflexivity|repeat constructor].
  - repeat constructor; lia.
Defined.

(** X27. The writer raises ValueError on an array with a negative sample
    when all its samples are at least -2^31 and below 0xd800: [chr] takes no
    negative argument, so an array has to pass [rectify_and_clip] first. *)
Theorem writer_rejects_negative_sample (a : raster) :
  all_samples (fun v => - 2 ^ 31 <= v < 55296) a ->
  Exists (Exists (fun v => v < 0)) a ->
  convert_np_arr_to_pgm a = Raise ValueError.
Proof.
  intros Hs He. unfold convert_np_arr_to_pgm.
  rewrite write_samples_negative; [reflexivity|by apply Forall_concat|].
  apply Exists_exists in He as (r & Hr & He).
  apply Exists_exists in He as (v & Hv & Hneg).
  apply Exists_exists. exists v. split; [|done].
  apply list_elem_of_In, in_concat. exists r.
  split; by apply list_elem_of_In.
Qed.

Lemma writer_rejects_negative_sample_witness :
  convert_np_arr_to_pgm [[0; 800]; [-100; 7]] = Raise ValueError.
Proof.
  apply writer_rejects_negative_sample.
  - repeat constructor; lia.
  - apply List.Exists_cons_tl, List.Exists_cons_hd, List.Exists_cons_hd. lia.
Defined.

(** ** The program *)

Lemma main_parsed (f : list byte) log0 wd ht max_val buf :
  parse_header f = (log0, Ok (wd, ht, max_val, buf)) ->
  main f = bind (edge_detect (loaded_grid buf wd ht)) convert_np_arr_to_pgm.
Proof.
  intros Hp. unfold main.
  by rewrite (convert_pgm_to_np_arr_parsed f _ _ _ _ _ Hp).
Qed.

(** X28. For an input file whose header parses to a width and a height that
    are not 0, [main] does not raise, whatever the bytes after the header.
    The output file has the header lines P5, the same width, the same height
    and 255, then a raster of at least width * height and at most twice as
    many bytes, then a line feed. *)
Theorem main_keeps_dimensions
    (f : list byte) (log0 : list log_record) (wd ht max_val : nat) (buf : list byte) :
  parse_header f = (log0, Ok (wd, ht, max_val, buf)) ->
  (0 < wd)%nat -> (0 < ht)%nat ->
  exists body,
    main f
    = Ok (header_on_lines [P5; py_str wd; py_str ht; py_str 255]
          ++ body ++ [newline])
    /\ (wd * ht <= length body <= 2 * (wd * ht))%nat.
Proof.
  intros Hp Hwd Hht. rewrite (main_parsed f _ _ _ _ _ Hp).
  destruct (edge_detect_8bit_cells ht wd _ (rect_loaded_grid buf wd ht) Hht Hwd
              (loaded_grid_8bit buf wd ht)) as (out & -> & Hr & Hs & _).
  cbn [bind]. rewrite (convert_np_arr_to_pgm_8bit out Hs).
  destruct (rect_shape _ _ _ Hr Hht) as [-> ->].
  eexists. split; [reflexivity|].
  rewrite length_utf8_8bit by by apply Forall_concat.
  rewrite (length_concat_rect ht wd out Hr).
  pose proof (length_filter (fun v => 128 <= v) (concat out)) as Hf.
  rewrite (length_concat_rect ht wd out Hr) in Hf. lia.
Qed.

Lemma main_keeps_dimensions_witness :
  exists body,
    main ex_file_4x4_10
    = Ok (header_on_lines [P5; py_str 4; py_str 4; py_str 255]
          ++ body ++ [newline])
    /\ (4 * 4 <= length body <= 2 * (4 * 4))%nat.
Proof.
  apply (main_keeps_dimensions ex_file_4x4_10
           (fst (parse_header ex_file_4x4_10)) 4 4 255
           [x01; x02; x03; x04; x05; x06; x07; x08; x09; x0b]).
  - vm_compute. reflexivity.
  - lia.
  - lia.
Defined.

(** X29. For an input file whose header parses to a width or a height of 0
    the loader returns an array with an empty axis, and [main] raises the
    ValueError of [np.pad] in the convolution stage. *)
Theorem main_raises_on_empty_image
    (f : list byte) (log0 : list log_record) (wd ht max_val : nat) (buf : list byte) :
  parse_header f = (log0, Ok (wd, ht, max_val, buf)) ->
  (wd = 0 \/ ht = 0)%nat ->
  main f = Raise ValueError.
Proof.
  intros Hp Hz. rewrite (main_parsed f _ _ _ _ _ Hp).
  assert (E : has_empty_axis (loaded_grid buf wd ht) = true).
  { unfold has_empty_axis. apply orb_true_iff.
    destruct ht as [|ht].
    - left. reflexivity.
    - right. apply Nat.eqb_eq.
      destruct (rect_shape _ _ _ (rect_loaded_grid buf wd (S ht))) as [_ ->];
        lia. }
  unfold edge_detect, apply_conv_kernel. by rewrite E.
Qed.

Lemma main_raises_on_empty_image_witness :
  main (header_on_lines [P5; ["0"%byte]; ["3"%byte]; ["2"%byte; "5"%byte; "5"%byte]]
        ++ [x01; x02])
  = Raise ValueError.
Proof.
  apply (main_raises_on_empty_image _
           (fst (parse_header
                   (header_on_lines
                      [P5; ["0"%byte]; ["3"%byte]; ["2"%byte; "5"%byte; "5"%byte]]
                    ++ [x01; x02]))) 0 3 255 [x01; x02]).
  - vm_compute. reflexivity.
  - left. reflexivity.
Defined.
